(** * Player10 analysis statistics: a shallow embedding of
      [players/player_10/tools/statistics.py]

    The Python module flattens simulation results into records and computes
    grouped summaries (bootstrap intervals, pairwise deltas, heat-map grids,
    Pareto points, seed stability curves).  The embedding keeps the shape of
    the code: Python values are a tagged union, exceptions are an error
    monad, dictionaries are finite maps or insertion-ordered association
    lists, and Python floats are the kernel's binary64 numbers. *)

From Stdlib Require Import ZArith QArith Qcanon Floats Ascii String List Permutation Sorted.
From stdpp Require Import gmap strings list.

Set Warnings "-register-all".
Local Open Scope string_scope.
Local Open Scope Z_scope.

(** ** Exceptions and the error monad *)

Inductive exn : Type :=
| ImportError (msg : string)
| ValueError (msg : string)
| TypeError (msg : string)
| AttributeError (msg : string)
| KeyError (keys : list string)
| OverflowError (msg : string)
| ZeroDivisionError (msg : string).

Inductive result (A : Type) : Type :=
| Ok (a : A)
| Raise (e : exn).
Arguments Ok {A} a.
Arguments Raise {A} e.

#[global] Instance result_ret : MRet result := fun A a => Ok a.
#[global] Instance result_bind : MBind result := fun A B f m =>
  match m with Ok a => f a | Raise e => Raise e end.
#[global] Instance result_fmap : FMap result := fun A B f m =>
  match m with Ok a => Ok (f a) | Raise e => Raise e end.

Definition is_ok {A} (r : result A) : bool :=
  match r with Ok _ => true | Raise _ => false end.

(** A [for] loop whose body may raise: the first exception ends the loop. *)
Fixpoint for_each {A S : Type} (body : S -> A -> result S) (xs : list A) (s : S)
  : result S :=
  match xs with
  | [] => Ok s
  | x :: xs' => s' ← body s x; for_each body xs' s'
  end.

(** A list built by appending one item per iteration. *)
Fixpoint map_result {A B : Type} (f : A -> result B) (xs : list A) : result (list B) :=
  match xs with
  | [] => Ok []
  | x :: xs' => y ← f x; ys ← map_result f xs'; Ok (y :: ys)
  end.

(** ** Python values

    [SimulationResult] is [Any] in the source: a result is either a mapping
    (the dictionaries [json.load] returns) or an object with attributes (a
    dataclass or [SimpleNamespace]).  [VDict] keeps the insertion order of a
    dictionary with string keys; [VObj] lists the attributes of an object. *)

Inductive value : Type :=
| VNone
| VBool (b : bool)
| VInt (z : Z)
| VFloat (f : float)
| VStr (s : string)
| VList (l : list value)
| VDict (d : list (string * value))
| VObj (a : list (string * value)).

Fixpoint assoc {A : Type} (k : string) (d : list (string * A)) : option A :=
  match d with
  | [] => None
  | (k', v) :: d' => if String.eqb k k' then Some v else assoc k d'
  end.

(** ** Floats: [float(x)], truth values, division *)

Definition Z2float (z : Z) : float := SF2Prim (binary_normalize prec emax z 0 false).

(** *** [float(str)]: optional sign, then [inf], [infinity], [nan] or a decimal
    literal with optional fraction and exponent, surrounded by white space. *)

Definition is_space (c : ascii) : bool :=
  let n := nat_of_ascii c in
  ((9 <=? n)%nat && (n <=? 13)%nat) || (n =? 32)%nat.

Definition digit_of (c : ascii) : option Z :=
  let n := Z.of_nat (nat_of_ascii c) in
  if (48 <=? n) && (n <=? 57) then Some (n - 48) else None.

Definition lower (c : ascii) : ascii :=
  let n := nat_of_ascii c in
  if ((65 <=? n)%nat && (n <=? 90)%nat)%bool then ascii_of_nat (n + 32) else c.

Fixpoint drop_spaces (cs : list ascii) : list ascii :=
  match cs with
  | c :: cs' => if is_space c then drop_spaces cs' else cs
  | [] => []
  end.

Definition strip (cs : list ascii) : list ascii :=
  rev (drop_spaces (rev (drop_spaces cs))).

(** Digits with single underscores between them: returns the number read,
    how many digits it has, and the rest.  [after_digit] says whether the
    previous character was a digit (an underscore is allowed only there, and
    must be followed by a digit). *)
Fixpoint digitpart (cs : list ascii) (acc : Z) (n : Z) (after_digit : bool)
  : Z * Z * list ascii :=
  match cs with
  | c :: cs' =>
      match digit_of c with
      | Some d => digitpart cs' (10 * acc + d) (n + 1) true
      | None =>
          if (Ascii.eqb c "_"%char && after_digit)%bool then
            match cs' with
            | c' :: _ =>
                match digit_of c' with
                | Some _ => digitpart cs' acc n false
                | None => (acc, n, cs)
                end
            | [] => (acc, n, cs)
            end
          else (acc, n, cs)
      end
  | [] => (acc, n, cs)
  end.

(** The binary64 number nearest to [m * 10 ^ e] (ties to even). *)
Definition decimal_to_float (neg : bool) (m e : Z) : float :=
  if m =? 0 then (if neg then PrimFloat.neg_zero else PrimFloat.zero)
  else
    let sm := if neg then - m else m in
    if 0 <=? e then Z2float (sm * 10 ^ e)
    else
      let den := 10 ^ (- e) in
      let s := Z.max 0 (64 + Z.log2_up den - Z.log2 m) in
      let q := (m * 2 ^ s) / den in
      let sticky := if (m * 2 ^ s) mod den =? 0 then 0 else 1 in
      let mant := 2 * q + sticky in
      SF2Prim (binary_normalize prec emax (if neg then - mant else mant) (- (s + 1)) false).

Definition parse_sign (cs : list ascii) : bool * list ascii :=
  match cs with
  | c :: cs' =>
      if Ascii.eqb c "-"%char then (true, cs')
      else if Ascii.eqb c "+"%char then (false, cs')
      else (false, cs)
  | [] => (false, cs)
  end.

Definition parse_exponent (cs : list ascii) : option Z :=
  match cs with
  | [] => Some 0
  | c :: cs' =>
      if Ascii.eqb (lower c) "e"%char then
        let '(neg, cs'') := parse_sign cs' in
        match digitpart cs'' 0 0 false with
        | (x, n, []) => if 0 <? n then Some (if neg then - x else x) else None
        | _ => None
        end
      else None
  end.

Definition parse_decimal (neg : bool) (cs : list ascii) : option float :=
  let '(ip, ni, rest) := digitpart cs 0 0 false in
  let '(m, nd, nf, rest') :=
    match rest with
    | c :: rest1 =>
        if Ascii.eqb c "."%char then
          let '(m, nf, rest2) := digitpart rest1 ip 0 false in (m, ni + nf, nf, rest2)
        else (ip, ni, 0, rest)
    | [] => (ip, ni, 0, rest)
    end in
  if nd =? 0 then None
  else match parse_exponent rest' with
       | Some x => Some (decimal_to_float neg m (x - nf))
       | None => None
       end.

Definition float_of_string (s : string) : option float :=
  let '(neg, body) := parse_sign (strip (list_ascii_of_string s)) in
  let word := string_of_list_ascii (map lower body) in
  if (String.eqb word "inf" || String.eqb word "infinity")%bool
  then Some (if neg then PrimFloat.neg_infinity else PrimFloat.infinity)
  else if String.eqb word "nan" then Some PrimFloat.nan
  else parse_decimal neg body.

(** [float(x)]: numbers convert (an integer beyond the binary64 range raises
    [OverflowError]), strings are parsed, anything else is a [TypeError]. *)
Definition py_float (v : value) : result float :=
  match v with
  | VFloat f => Ok f
  | VInt z =>
      let f := Z2float z in
      if PrimFloat.is_infinity f then Raise (OverflowError "int too large to convert to float")
      else Ok f
  | VBool b => Ok (if b then PrimFloat.one else PrimFloat.zero)
  | VStr s =>
      match float_of_string s with
      | Some f => Ok f
      | None => Raise (ValueError "could not convert string to float")
      end
  | _ => Raise (TypeError "float() argument must be a string or a real number")
  end.

(** Truth value of an object ([if x], [x or y]). *)
Definition py_truthy (v : value) : bool :=
  match v with
  | VNone => false
  | VBool b => b
  | VInt z => negb (z =? 0)
  | VFloat f => negb (f =? 0)%float
  | VStr s => negb (String.eqb s "")
  | VList l => match l with [] => false | _ => true end
  | VDict d => match d with [] => false | _ => true end
  | VObj _ => true
  end.

(** [a / b] on Python floats. *)
Definition py_truediv (a b : float) : result float :=
  if (b =? 0)%float then Raise (ZeroDivisionError "float division by zero")
  else Ok (a / b)%float.

(** ** Attribute and mapping access

    [getattr] and [hasattr] look at the attributes an object carries.  The
    attributes every built-in type has ([items], [real], ...) are not
    modelled: none of the field names this module reads is one of them. *)

Definition getattr (o : value) (attr : string) (dflt : value) : value :=
  match o with
  | VObj a => default dflt (assoc attr a)
  | _ => dflt
  end.

Definition hasattr (o : value) (attr : string) : bool :=
  match o with
  | VObj a => bool_decide (is_Some (assoc attr a))
  | _ => false
  end.

Definition dict_get (d : list (string * value)) (attr : string) (dflt : value) : value :=
  default dflt (assoc attr d).

Definition _config_value (config : value) (attr : string) (dflt : value) : value :=
  match config with
  | VNone => dflt
  | _ =>
      if hasattr config attr then getattr config attr dflt
      else match config with
           | VDict d => dict_get d attr dflt
           | _ => dflt
           end
  end.

Definition _get (source : value) (attr : string) (dflt : value) : value :=
  match source with
  | VDict d => dict_get d attr dflt
  | _ => getattr source attr dflt
  end.

(** ** Record Normalizer: [results_to_records] *)

(** A flat record: field name to value.  A key that is absent from the map is
    absent from the Python dictionary. *)
Abbreviation record := (gmap string value).

(** The configuration knobs, as (record key, attribute read from [config]). *)
Definition config_fields : list (string * string) :=
  [ ("altruism_prob", "altruism_prob"); ("tau_margin", "tau_margin");
    ("epsilon_fresh", "epsilon_fresh"); ("epsilon_mono", "epsilon_mono");
    ("subjects", "subjects"); ("memory_size", "memory_size");
    ("conversation_length_cfg", "conversation_length"); ("seed", "seed");
    ("min_samples_pid", "min_samples_pid"); ("ewma_alpha", "ewma_alpha");
    ("importance_weight", "importance_weight");
    ("coherence_weight", "coherence_weight");
    ("freshness_weight", "freshness_weight");
    ("monotony_weight", "monotony_weight") ].

(** The outcome fields read with [_get(result, attr)], default [None]. *)
Definition outcome_fields : list (string * string) :=
  [ ("total_score", "total_score"); ("player10_score", "player10_total_mean");
    ("player10_individual", "player10_individual_mean");
    ("player10_rank", "player10_rank_mean");
    ("player10_gap_to_best", "player10_gap_to_best");
    ("player10_instances", "player10_instances");
    ("best_total_score", "best_total_score");
    ("conversation_length", "conversation_length");
    ("pause_count", "pause_count"); ("unique_items_used", "unique_items_used");
    ("execution_time", "execution_time") ].

Definition set_fields (read : string -> value) (fields : list (string * string))
    (row : record) : record :=
  fold_left (fun r '(key, attr) => <[key := read attr]> r) fields row.

(** The dictionary display of the loop body; [float(...)] of the
    early-termination field is its only entry that can raise. *)
Definition literal_row (cfg out : string -> value) (early : value) : record :=
  set_fields out outcome_fields
    (<["early_termination" := early]> (set_fields cfg config_fields ∅)).

Definition base_row (res : value) : result record :=
  let config := _get res "config" VNone in
  early ← py_float (_get res "early_termination" (VFloat 0));
  Ok (literal_row (fun attr => _config_value config attr VNone)
                  (fun attr => _get res attr VNone) (VFloat early)).

(** [score_breakdown.items()]: a mapping yields its entries, anything else
    has no usable [items] method. *)
Definition py_items (v : value) : result (list (string * value)) :=
  match v with
  | VDict d => Ok d
  | VObj a =>
      match assoc "items" a with
      | Some _ => Raise (TypeError "object is not callable")
      | None => Raise (AttributeError "object has no attribute 'items'")
      end
  | _ => Raise (AttributeError "object has no attribute 'items'")
  end.

Definition add_breakdown (row : record) (entry : string * value) : record :=
  let '(component, v) := entry in
  if String.eqb component "total" then row
  else <["shared_" ++ component := v]> row.

Definition add_length_utilization (row : record) : result record :=
  let conversation_length_cfg := default VNone (row !! "conversation_length_cfg") in
  let conversation_length := default VNone (row !! "conversation_length") in
  if py_truthy conversation_length_cfg && py_truthy conversation_length then
    if py_truthy conversation_length_cfg then
      a ← py_float conversation_length;
      b ← py_float conversation_length_cfg;
      u ← py_truediv a b;
      Ok (<["length_utilization" := VFloat u]> row)
    else Ok (<["length_utilization" := VNone]> row)
  else Ok row.

(** One iteration of the loop over [results]. *)
Definition record_of (res : value) : result record :=
  row ← base_row res;
  let sb := _get res "score_breakdown" (VDict []) in
  let score_breakdown := if py_truthy sb then sb else VDict [] in
  items ← py_items score_breakdown;
  add_length_utilization (fold_left add_breakdown items row).

Definition results_to_records (results : list value) : result (list record) :=
  map_result record_of results.

(** *** Vocabulary for the normalizer's properties *)

(** Whether a result carries the field at all (as a key or an attribute). *)
Definition has_field (res : value) (attr : string) : bool :=
  match res with
  | VDict d | VObj d => bool_decide (is_Some (assoc attr d))
  | _ => false
  end.

(** Keys that no score-breakdown component can overwrite. *)
Definition not_shared (k : string) : Prop := forall c, "shared_" ++ c <> k.

(** The two lengths the utilization ratio is derived from. *)
Definition configured_length (res : value) : value :=
  _config_value (_get res "config" VNone) "conversation_length" VNone.
Definition realized_length (res : value) : value :=
  _get res "conversation_length" VNone.

(** When one iteration completes without an exception. *)
Definition early_ok (res : value) : bool :=
  is_ok (py_float (_get res "early_termination" (VFloat 0))).

Definition breakdown_ok (res : value) : bool :=
  let sb := _get res "score_breakdown" (VDict []) in
  negb (py_truthy sb) || match sb with VDict _ => true | _ => false end.

Definition lengths_ok (res : value) : bool :=
  if py_truthy (configured_length res) && py_truthy (realized_length res) then
    match py_float (realized_length res), py_float (configured_length res) with
    | Ok _, Ok b => negb (b =? 0)%float
    | _, _ => false
    end
  else true.

Definition normalizable (res : value) : bool :=
  early_ok res && breakdown_ok res && lengths_ok res.


(** ** Numbers as dictionary keys and sort keys

    Python compares [bool], [int] and [float] by exact numeric value
    ([1 == 1.0 == True]), so a key is identified by the number it denotes.
    Every finite binary64 number is a dyadic rational. *)

Inductive num : Type :=
| NegInf
| Fin (q : Qc)
| PosInf.

Definition dyadic (m e : Z) : Q :=
  if 0 <=? e then inject_Z (m * 2 ^ e) else Qmake m (Z.to_pos (2 ^ (- e))).

Definition float_num (f : float) : option num :=
  match Prim2SF f with
  | S754_zero _ => Some (Fin (Q2Qc 0))
  | S754_infinity s => Some (if s then NegInf else PosInf)
  | S754_nan => None
  | S754_finite s m e => Some (Fin (Q2Qc (dyadic (cond_Zopp s (Zpos m)) e)))
  end.

(** The number a value denotes; [None] for a NaN and for values that are not
    numbers. *)
Definition py_num (v : value) : option num :=
  match v with
  | VBool b => Some (Fin (Q2Qc (inject_Z (if b then 1 else 0))))
  | VInt z => Some (Fin (Q2Qc (inject_Z z)))
  | VFloat f => float_num f
  | _ => None
  end.

(** A number other than NaN. *)
Definition numeric (v : value) : Prop := is_Some (py_num v).

(** The exact number a numeric value denotes. *)
Definition num_of (v : value) : num := default (Fin (Q2Qc 0)) (py_num v).

Definition num_lt (x y : num) : Prop :=
  match x, y with
  | NegInf, NegInf => False
  | NegInf, _ => True
  | Fin p, Fin q => (p < q)%Qc
  | Fin _, PosInf => True
  | _, _ => False
  end.

#[global] Instance num_eq_dec : EqDecision num.
Proof. solve_decision. Defined.

#[global] Instance num_lt_dec : RelDecision num_lt.
Proof. intros [|p|] [|q|]; simpl; apply _. Defined.

(** Lexicographic order on tuples of numbers (Python's tuple comparison). *)
Fixpoint lex_lt (a b : list num) : Prop :=
  match a, b with
  | x :: a', y :: b' => num_lt x y \/ (x = y /\ lex_lt a' b')
  | [], _ :: _ => True
  | _, [] => False
  end.

#[global] Instance lex_lt_dec : RelDecision lex_lt.
Proof.
  intros a. induction a as [|x a IH]; intros [|y b]; simpl; apply _.
Defined.

(** *** Hashing and key identity *)

(** What identifies a hashable value as a dictionary key or set element.
    A NaN is found again only as the very same object; the model gives all
    NaN keys one identity. *)
Inductive hkey : Type :=
| HNone
| HNum (x : num)
| HNaN
| HStr (s : string)
| HUnhashable.

#[global] Instance hkey_eq_dec : EqDecision hkey.
Proof. solve_decision. Defined.

Definition key_norm (v : value) : hkey :=
  match v with
  | VNone => HNone
  | VBool _ | VInt _ | VFloat _ =>
      match py_num v with Some x => HNum x | None => HNaN end
  | VStr s => HStr s
  | VList _ | VDict _ | VObj _ => HUnhashable
  end.

(** Lists and dictionaries are unhashable; so are namespace and dataclass
    objects, which define [__eq__] without [__hash__]. *)
Definition py_hashable (v : value) : bool :=
  match v with
  | VList _ | VDict _ | VObj _ => false
  | _ => true
  end.

Definition py_hash (v : value) : result unit :=
  if py_hashable v then Ok tt else Raise (TypeError "unhashable type").

Definition hash_tuple (t : list value) : result unit :=
  if forallb py_hashable t then Ok tt else Raise (TypeError "unhashable type").

Definition is_none (v : value) : bool :=
  match v with VNone => true | _ => false end.

(** *** [<] on values and tuples *)

Definition str_ltb (a b : string) : bool :=
  match String.compare a b with Lt => true | _ => false end.

Definition is_number (v : value) : bool :=
  match v with VBool _ | VInt _ | VFloat _ => true | _ => false end.

Definition py_lt (a b : value) : result bool :=
  match a, b with
  | VStr s, VStr t => Ok (str_ltb s t)
  | _, _ =>
      if is_number a && is_number b then
        match py_num a, py_num b with
        | Some x, Some y => Ok (bool_decide (num_lt x y))
        | _, _ => Ok false
        end
      else Raise (TypeError "'<' not supported between these instances")
  end.

Definition key_eq (a b : value) : bool := bool_decide (key_norm a = key_norm b).

(** Tuples compare at the first position where they differ. *)
Fixpoint tuple_lt (a b : list value) : result bool :=
  match a, b with
  | x :: a', y :: b' => if key_eq x y then tuple_lt a' b' else py_lt x y
  | [], _ :: _ => Ok true
  | _, [] => Ok false
  end.

(** *** [sorted]

    A stable sort that only uses [<], as Python's does; an exception raised
    by a comparison ends it. *)
Fixpoint insert_sorted {A : Type} (lt : A -> A -> result bool) (x : A) (l : list A)
  : result (list A) :=
  match l with
  | [] => Ok [x]
  | y :: l' =>
      b ← lt x y;
      if b : bool then Ok (x :: l) else l'' ← insert_sorted lt x l'; Ok (y :: l'')
  end.

Definition py_sorted {A : Type} (lt : A -> A -> result bool) (l : list A)
  : result (list A) :=
  for_each (fun acc x => insert_sorted lt x acc) l [].

(** *** Insertion-ordered dictionaries and sets keyed by values *)

Section pydict.
Context {K N V : Type} `{EqDecision N} (norm : K -> N).

Fixpoint dict_find (k : K) (d : list (K * V)) : option V :=
  match d with
  | [] => None
  | (k', v) :: d' => if decide (norm k = norm k') then Some v else dict_find k d'
  end.

(** [d[k] = f(d[k])] on a [defaultdict] whose default is [v0]. *)
Fixpoint dict_update (k : K) (f : V -> V) (v0 : V) (d : list (K * V)) : list (K * V) :=
  match d with
  | [] => [(k, f v0)]
  | (k', v) :: d' =>
      if decide (norm k = norm k') then (k', f v) :: d'
      else (k', v) :: dict_update k f v0 d'
  end.

(** [s.add(k)] *)
Fixpoint set_add (k : K) (s : list K) : list K :=
  match s with
  | [] => [k]
  | k' :: s' => if decide (norm k = norm k') then s else k' :: set_add k s'
  end.
End pydict.


(** ** Grid builder: [heatmap_matrix] *)

(** [sum(xs)] adds from left to right, starting at zero. *)
Definition py_sum (xs : list float) : float := fold_left PrimFloat.add xs PrimFloat.zero.

Definition float_of_nat (n : nat) : float := Z2float (Z.of_nat n).

(** [sum(xs) / len(xs)] *)
Definition py_mean (xs : list float) : float :=
  (py_sum xs / float_of_nat (length xs))%float.

(** [matrix]: a [defaultdict] of [defaultdict(list)]. *)
Abbreviation matrix := (list (value * list (value * list float))).

Record heatmap_state : Type := {
  hm_matrix : matrix;
  row_values : list value;
  col_values : list value
}.

Definition score_metrics : list string :=
  ["total_score"; "player10_score"; "player10_individual"; "best_total_score"].

Definition heatmap_step (row_attr col_attr metric : string)
    (st : heatmap_state) (res : value) : result heatmap_state :=
  let config := getattr res "config" VNone in
  let row_value := _config_value config row_attr VNone in
  let col_value := _config_value config col_attr VNone in
  let metric_value := getattr res metric VNone in
  let metric_value :=
    if bool_decide (metric ∈ score_metrics) then getattr res metric metric_value
    else metric_value in
  if is_none row_value || is_none col_value || is_none metric_value then Ok st
  else
    _ ← py_hash row_value;
    _ ← py_hash col_value;
    x ← py_float metric_value;
    Ok {| hm_matrix :=
            dict_update key_norm row_value
              (dict_update key_norm col_value (fun bucket : list float => (bucket ++ [x])%list) []) []
              (hm_matrix st);
          row_values := set_add key_norm row_value (row_values st);
          col_values := set_add key_norm col_value (col_values st) |}.

(** [matrix.get(row_value, {}).get(col_value, [])] *)
Definition bucket_of (m : matrix) (row_value col_value : value) : list float :=
  default [] (dict_find key_norm col_value (default [] (dict_find key_norm row_value m))).

(** [sum(xs) / len(xs) if xs else None] *)
Definition cell_of (bucket : list float) : option float :=
  match bucket with
  | [] => None
  | _ => Some (py_mean bucket)
  end.

Definition heatmap_matrix (results : list value) (row_attr col_attr metric : string)
  : result (option (list value * list value * list (list (option float)))) :=
  st ← for_each (heatmap_step row_attr col_attr metric) results
         {| hm_matrix := []; row_values := []; col_values := [] |};
  match row_values st, col_values st with
  | [], _ | _, [] => Ok None
  | _, _ =>
      row_order ← py_sorted py_lt (row_values st);
      col_order ← py_sorted py_lt (col_values st);
      Ok (Some (row_order, col_order,
                map (fun row_value =>
                       map (fun col_value =>
                              cell_of (bucket_of (hm_matrix st) row_value col_value))
                           col_order)
                    row_order))
  end.

(** *** Vocabulary for the properties of the grid *)

Section grid_vocabulary.
Variables (row_attr col_attr metric : string).

Definition hm_row (res : value) : value :=
  _config_value (getattr res "config" VNone) row_attr VNone.
Definition hm_col (res : value) : value :=
  _config_value (getattr res "config" VNone) col_attr VNone.
Definition hm_metric (res : value) : value := getattr res metric VNone.

(** A result contributes to the grid when its row value, column value and
    metric are all present. *)
Definition contributes (res : value) : bool :=
  negb (is_none (hm_row res) || is_none (hm_col res) || is_none (hm_metric res)).

(** The metric values that land in the cell [(r, c)], in input order. *)
Definition cell_entry (r c : value) (res : value) : list float :=
  if contributes res
     && bool_decide (key_norm (hm_row res) = key_norm r)
     && bool_decide (key_norm (hm_col res) = key_norm c)
  then match py_float (hm_metric res) with Ok x => [x] | Raise _ => [] end
  else [].

Definition cell_values (r c : value) (results : list value) : list float :=
  flat_map (cell_entry r c) results.

(** Well-typed input: the row and column values of a contributing result
    are numbers (not NaN) and its metric converts with [float()]. *)
Definition heatmap_typed (res : value) : Prop :=
  contributes res = true ->
  numeric (hm_row res) /\ numeric (hm_col res) /\ is_ok (py_float (hm_metric res)) = true.
End grid_vocabulary.

(** ** Pareto point builder: [pareto_points] *)

Record pareto_group : Type := {
  total_sum : float;
  total_count : nat;
  p10_sum : float;
  p10_count : nat;
  early_sum : float;
  early_count : nat
}.

Definition new_group : pareto_group :=
  {| total_sum := PrimFloat.zero; total_count := 0%nat; p10_sum := PrimFloat.zero; p10_count := 0%nat;
     early_sum := PrimFloat.zero; early_count := 0%nat |}.

Definition add_total (x : float) (g : pareto_group) : pareto_group :=
  {| total_sum := (total_sum g + x)%float; total_count := S (total_count g);
     p10_sum := p10_sum g; p10_count := p10_count g;
     early_sum := early_sum g; early_count := early_count g |}.

Definition add_p10 (x : float) (g : pareto_group) : pareto_group :=
  {| total_sum := total_sum g; total_count := total_count g;
     p10_sum := (p10_sum g + x)%float; p10_count := S (p10_count g);
     early_sum := early_sum g; early_count := early_count g |}.

Definition add_early (x : float) (g : pareto_group) : pareto_group :=
  {| total_sum := total_sum g; total_count := total_count g;
     p10_sum := p10_sum g; p10_count := p10_count g;
     early_sum := (early_sum g + x)%float; early_count := S (early_count g) |}.

(** [groups]: a [defaultdict] keyed by the 4-tuple. *)
Abbreviation groups := (list (list value * pareto_group)).

(** [if v is not None: groups[key][..] += float(v); groups[key][..] += 1] *)
Definition observe (key : list value) (v : value)
    (add : float -> pareto_group -> pareto_group) (gs : groups) : result groups :=
  if is_none v then Ok gs
  else
    _ ← hash_tuple key;
    x ← py_float v;
    Ok (dict_update (map key_norm) key (add x) new_group gs).

Definition pareto_key (res : value) : list value :=
  let config := getattr res "config" VNone in
  [ _config_value config "altruism_prob" VNone;
    _config_value config "tau_margin" VNone;
    _config_value config "epsilon_fresh" VNone;
    _config_value config "epsilon_mono" VNone ].

Definition pareto_step (gs : groups) (res : value) : result groups :=
  let key := pareto_key res in
  if existsb is_none key then Ok gs
  else
    gs ← observe key (getattr res "total_score" VNone) add_total gs;
    gs ← observe key (getattr res "player10_individual_mean" VNone) add_p10 gs;
    observe key (getattr res "early_termination" VNone) add_early gs.

Record point : Type := {
  altruism : value;
  tau : value;
  fresh : value;
  mono : value;
  total : float;
  player10 : float;
  early : option float;
  runs : nat
}.

Definition point_of (key : list value) (data : pareto_group) : list point :=
  match key with
  | [a; t; f; m] =>
      if (total_count data =? 0)%nat || (p10_count data =? 0)%nat then []
      else [ {| altruism := a; tau := t; fresh := f; mono := m;
                total := (total_sum data / float_of_nat (total_count data))%float;
                player10 := (p10_sum data / float_of_nat (p10_count data))%float;
                early := if (early_count data =? 0)%nat then None
                         else Some (early_sum data / float_of_nat (early_count data))%float;
                runs := total_count data |} ]
  | _ => []
  end.

(** The sort key [(item['altruism'], item['tau'], item['fresh'], item['mono'])]. *)
Definition point_key (p : point) : list value := [altruism p; tau p; fresh p; mono p].

Definition pareto_points (results : list value) : result (list point) :=
  gs ← for_each pareto_step results [];
  let points := flat_map (fun '(key, data) => point_of key data) gs in
  py_sorted (fun p q => tuple_lt (point_key p) (point_key q)) points.

(** *** Vocabulary for the properties of the Pareto points *)

(** A result takes part when none of its four key fields is [None]. *)
Definition keyed (res : value) : bool := negb (existsb is_none (pareto_key res)).

(** The results grouped under the key [k]. *)
Definition in_group (k : list value) (res : value) : bool :=
  keyed res && bool_decide (map key_norm (pareto_key res) = map key_norm k).

(** The non-null observations of one attribute, in input order. *)
Definition observation (attr : string) (res : value) : list float :=
  let v := getattr res attr VNone in
  if is_none v then []
  else match py_float v with Ok x => [x] | Raise _ => [] end.

Definition observations (attr : string) (rs : list value) : list float :=
  flat_map (observation attr) rs.

(** Well-typed input: the key fields of a participating result are numbers
    (not NaN), and each observed value is null or converts with [float()]. *)
Definition convertible (v : value) : Prop := is_none v = true \/ is_ok (py_float v) = true.

Definition pareto_typed (res : value) : Prop :=
  keyed res = true ->
  Forall numeric (pareto_key res) /\
  convertible (getattr res "total_score" VNone) /\
  convertible (getattr res "player10_individual_mean" VNone) /\
  convertible (getattr res "early_termination" VNone).


(** ** Score buckets: [score_buckets_by_altruism] *)

Record score_bucket : Type := {
  bucket_total : list float;
  bucket_player10 : list float
}.

(** The default of the [defaultdict]: [{'total': [], 'player10': []}]. *)
Definition new_bucket : score_bucket := {| bucket_total := []; bucket_player10 := [] |}.

Definition append_total (x : float) (b : score_bucket) : score_bucket :=
  {| bucket_total := (bucket_total b ++ [x])%list; bucket_player10 := bucket_player10 b |}.

Definition append_player10 (x : float) (b : score_bucket) : score_bucket :=
  {| bucket_total := bucket_total b; bucket_player10 := (bucket_player10 b ++ [x])%list |}.

Abbreviation buckets := (list (value * score_bucket)).

(** [if v is not None: buckets[a][..].append(float(v))] *)
Definition bucket_append (a v : value) (add : float -> score_bucket -> score_bucket)
    (bs : buckets) : result buckets :=
  if is_none v then Ok bs
  else
    _ ← py_hash a;
    x ← py_float v;
    Ok (dict_update key_norm a (add x) new_bucket bs).

Definition bucket_step (bs : buckets) (res : value) : result buckets :=
  let config := getattr res "config" VNone in
  let a := _config_value config "altruism_prob" VNone in
  if is_none a then Ok bs
  else
    bs ← bucket_append a (getattr res "total_score" VNone) append_total bs;
    bucket_append a (getattr res "player10_total_mean" VNone) append_player10 bs.

(** [dict(sorted(buckets.items(), key=lambda item: item[0]))] *)
Definition score_buckets_by_altruism (results : list value) : result buckets :=
  bs ← for_each bucket_step results [];
  py_sorted (fun x y : value * score_bucket => py_lt (fst x) (fst y)) bs.

(** ** Component means: [component_means_by_altruism] *)

(** [float(value)] inside [try ... except (TypeError, ValueError): continue]:
    [None] stands for the skipped iteration; other exceptions propagate. *)
Definition try_float (v : value) : result (option float) :=
  match py_float v with
  | Ok x => Ok (Some x)
  | Raise (TypeError _) | Raise (ValueError _) => Ok None
  | Raise e => Raise e
  end.

(** [breakdown.get(key)] *)
Definition py_get (breakdown : value) (key : string) : result value :=
  match breakdown with
  | VDict d => Ok (dict_get d key VNone)
  | VObj a =>
      match assoc "get" a with
      | Some _ => Raise (TypeError "object is not callable")
      | None => Raise (AttributeError "object has no attribute 'get'")
      end
  | _ => Raise (AttributeError "object has no attribute 'get'")
  end.

Record component_state : Type := {
  sums : list (value * list (string * float));
  counts : list (value * list (string * nat))
}.

Definition same_string (s : string) : string := s.

Definition component_add (a : value) (breakdown : value) (st : component_state)
    (key : string) : result component_state :=
  v ← py_get breakdown key;
  if is_none v then Ok st
  else
    fx ← try_float v;
    match fx with
    | None => Ok st
    | Some x =>
        _ ← py_hash a;
        Ok {| sums := dict_update key_norm a
                        (dict_update same_string key (fun s => (s + x)%float) PrimFloat.zero)
                        [] (sums st);
              counts := dict_update key_norm a
                          (dict_update same_string key S 0%nat) [] (counts st) |}
    end.

Definition component_step (components : list string) (st : component_state)
    (res : value) : result component_state :=
  let config := getattr res "config" VNone in
  let a := _config_value config "altruism_prob" VNone in
  if is_none a then Ok st
  else
    let sb := getattr res "score_breakdown" VNone in
    let breakdown := if py_truthy sb then sb else VDict [] in
    for_each (component_add a breakdown) components st.

(** [sums[level][key] / count if count else 0.0] *)
Definition component_mean (st : component_state) (level : value) (key : string) : float :=
  let count := default 0%nat
                 (dict_find same_string key
                    (default [] (dict_find key_norm level (counts st)))) in
  if (count =? 0)%nat then PrimFloat.zero
  else (default PrimFloat.zero
          (dict_find same_string key (default [] (dict_find key_norm level (sums st))))
        / float_of_nat count)%float.

Definition component_means_by_altruism (results : list value) (components : list string)
  : result (option (list value * list (string * list float))) :=
  st ← for_each (component_step components) results {| sums := []; counts := [] |};
  match sums st with
  | [] => Ok None
  | _ =>
      altruism_levels ← py_sorted py_lt (map fst (sums st));
      let series0 :=
        fold_left (fun s key => dict_update same_string key (fun _ => []) [] s)
                  components ([] : list (string * list float)) in
      let series :=
        fold_left
          (fun s level =>
             fold_left
               (fun s key =>
                  dict_update same_string key
                    (fun l => (l ++ [component_mean st level key])%list) [] s)
               components s)
          altruism_levels series0 in
      Ok (Some (altruism_levels, series))
  end.

(** ** The dashboard script's conversion of loaded results
    ([generate_dashboard_from_results.py]): each mapping becomes an object
    whose [config] is itself an object and whose other keys are attributes. *)

Definition is_config_key (kv : string * value) : bool := String.eqb (fst kv) "config".

Definition convert_result (res : value) : result value :=
  match res with
  | VDict d =>
      match assoc "config" d with
      | Some (VDict cfg) =>
          Ok (VObj (("config", VObj cfg) :: List.filter (fun kv => negb (is_config_key kv)) d))
      | Some _ => Raise (TypeError "argument after ** must be a mapping")
      | None => Raise (KeyError ["config"])
      end
  | _ => Raise (TypeError "indices must be integers or the object is not subscriptable")
  end.

Definition converted_results (results : list value) : result (list value) :=
  map_result convert_result results.

(** *** Vocabulary for the properties of these functions *)

(** Objects carry attributes; every other value (a mapping loaded from JSON
    included) has none of the fields read with [getattr]. *)
Definition is_object (v : value) : bool :=
  match v with VObj _ => true | _ => false end.

(** The altruism level a result is bucketed under. *)
Definition altruism_level (res : value) : value :=
  _config_value (getattr res "config" VNone) "altruism_prob" VNone.

(** The results bucketed under the level [a]. *)
Definition at_level (a : value) (res : value) : bool :=
  negb (is_none (altruism_level res)) &&
  bool_decide (key_norm (altruism_level res) = key_norm a).

(** Well-typed input: the level of a result that has one is a number (not
    NaN) and each of its two scores is null or converts with [float()]. *)
Definition bucket_typed (res : value) : Prop :=
  is_none (altruism_level res) = false ->
  numeric (altruism_level res) /\
  convertible (getattr res "total_score" VNone) /\
  convertible (getattr res "player10_total_mean" VNone).

(** *** Vocabulary for the component means *)

(** [getattr(result, 'score_breakdown', None) or {}] *)
Definition breakdown_of (res : value) : value :=
  let sb := getattr res "score_breakdown" VNone in
  if py_truthy sb then sb else VDict [].

(** The value a result contributes to a component: none when the component
    is missing, null, or rejected by [float()]. *)
Definition usable (key : string) (res : value) : list float :=
  match py_get (breakdown_of res) key with
  | Ok v =>
      if is_none v then []
      else match try_float v with Ok (Some x) => [x] | _ => [] end
  | Raise _ => []
  end.

(** The usable values of one component over the results at one level. *)
Definition component_values (a : value) (key : string) (results : list value)
  : list float :=
  flat_map (usable key) (List.filter (at_level a) results).

(** [sum / count if count else 0.0] *)
Definition mean_or_zero (xs : list float) : float :=
  if (length xs =? 0)%nat then PrimFloat.zero
  else (py_sum xs / float_of_nat (length xs))%float.

(** Well-typed input: a result that has a level has a number (not NaN) for
    it, its score breakdown is a mapping (or falsy), and none of the
    requested components is an integer too large for [float()]. *)
Definition component_typed (components : list string) (res : value) : Prop :=
  is_none (altruism_level res) = false ->
  numeric (altruism_level res) /\
  exists d, breakdown_of res = VDict d /\
            forall key, key ∈ components -> is_ok (try_float (dict_get d key VNone)) = true.

(** * Properties *)



(** ** The Record Normalizer *)

Section normalizer_facts.
Variables (cfg out : string -> value) (early : value).

Lemma literal_row_length_cfg :
  literal_row cfg out early !! "conversation_length_cfg" = Some (cfg "conversation_length").
Proof. vm_compute. reflexivity. Qed.

Lemma literal_row_length :
  literal_row cfg out early !! "conversation_length" = Some (out "conversation_length").
Proof. vm_compute. reflexivity. Qed.

Lemma literal_row_early : literal_row cfg out early !! "early_termination" = Some early.
Proof. vm_compute. reflexivity. Qed.

Lemma literal_row_utilization : literal_row cfg out early !! "length_utilization" = None.
Proof. vm_compute. reflexivity. Qed.

Lemma literal_row_outcome key attr :
  In (key, attr) outcome_fields -> literal_row cfg out early !! key = Some (out attr).
Proof.
  unfold outcome_fields. simpl.
  intros H. repeat (destruct H as [H | H]; [inversion H; subst; vm_compute; reflexivity |]).
  destruct H.
Qed.
End normalizer_facts.

Arguments literal_row : simpl never.


Lemma _get_missing res attr dflt : has_field res attr = false -> _get res attr dflt = dflt.
Proof.
  destruct res; simpl; intros H; try reflexivity; unfold dict_get;
    apply bool_decide_eq_false in H;
    (destruct (assoc attr _); [exfalso; apply H; eauto | reflexivity]).
Qed.

Lemma Ok_inj {A} (a b : A) : Ok a = Ok b -> a = b.
Proof. intros H. injection H. auto. Qed.

Lemma bind_ok {A B} (m : result A) (f : A -> result B) b :
  m ≫= f = Ok b -> exists a, m = Ok a /\ f a = Ok b.
Proof. destruct m; simpl; [eauto | discriminate]. Qed.

Lemma map_result_length {A B} (f : A -> result B) xs ys :
  map_result f xs = Ok ys -> length ys = length xs.
Proof.
  revert ys. induction xs as [|x xs IH]; simpl; intros ys H.
  - injection H as <-. reflexivity.
  - apply bind_ok in H as (y & _ & H). apply bind_ok in H as (ys' & H' & H).
    injection H as <-. simpl. f_equal. apply IH, H'.
Qed.

Lemma map_result_lookup {A B} (f : A -> result B) xs ys i x :
  map_result f xs = Ok ys -> xs !! i = Some x ->
  exists y, ys !! i = Some y /\ f x = Ok y.
Proof.
  revert ys i. induction xs as [|x0 xs IH]; simpl; intros ys i H Hx; [discriminate|].
  apply bind_ok in H as (y & Hy & H). apply bind_ok in H as (ys' & H' & H).
  injection H as <-. destruct i as [|i]; simpl in *.
  - injection Hx as ->. eauto.
  - eapply IH; eauto.
Qed.

Lemma map_result_ok_iff {A B} (f : A -> result B) xs :
  is_ok (map_result f xs) = forallb (fun x => is_ok (f x)) xs.
Proof.
  induction xs as [|x xs IH]; simpl; [reflexivity|].
  destruct (f x); simpl; [|reflexivity].
  rewrite <- IH. destruct (map_result f xs); reflexivity.
Qed.


Lemma add_breakdown_lookup items row k :
  not_shared k -> fold_left add_breakdown items row !! k = row !! k.
Proof.
  intros Hk. revert row. induction items as [|[c v] items IH]; intros row; simpl; [reflexivity|].
  rewrite IH. destruct (String.eqb c "total"); [reflexivity|].
  apply lookup_insert_ne, Hk.
Qed.

Ltac not_shared := let c := fresh in let H := fresh in intros c H; discriminate H.

Lemma not_shared_outcome key attr : In (key, attr) outcome_fields -> not_shared key.
Proof.
  unfold outcome_fields. simpl. intros H.
  repeat (destruct H as [H | H]; [inversion H; subst; not_shared |]). destruct H.
Qed.

(** What one iteration leaves in the row, field by field. *)
Lemma record_of_inv res row :
  record_of res = Ok row ->
  exists early items row0,
    py_float (_get res "early_termination" (VFloat 0)) = Ok early /\
    row0 = fold_left add_breakdown items
             (literal_row (fun attr => _config_value (_get res "config" VNone) attr VNone)
                          (fun attr => _get res attr VNone) (VFloat early)) /\
    add_length_utilization row0 = Ok row.
Proof.
  unfold record_of, base_row. intros H.
  apply bind_ok in H as (r0 & H0 & H). apply bind_ok in H0 as (early & He & H0).
  apply Ok_inj in H0. subst r0. apply bind_ok in H as (items & _ & H).
  exists early, items. eexists. split; [exact He|]. split; [reflexivity|]. exact H.
Qed.

Lemma add_length_utilization_other row row' k :
  k <> "length_utilization" -> add_length_utilization row = Ok row' -> row' !! k = row !! k.
Proof.
  intros Hk. unfold add_length_utilization.
  destruct (py_truthy _ && py_truthy _);
    [|intros H; apply Ok_inj in H; subst row'; reflexivity].
  destruct (py_truthy _).
  - intros H. apply bind_ok in H as (a & _ & H). apply bind_ok in H as (b & _ & H).
    apply bind_ok in H as (u & _ & H). apply Ok_inj in H. subst row'.
    apply lookup_insert_ne. congruence.
  - intros H. apply Ok_inj in H. subst row'. apply lookup_insert_ne. congruence.
Qed.

Lemma py_truediv_ok a b u : py_truediv a b = Ok u -> (b =? 0)%float = false /\ u = (a / b)%float.
Proof. unfold py_truediv. destruct (b =? 0)%float; [discriminate|]. intros [= <-]. auto. Qed.

Lemma record_of_lookup res row k :
  record_of res = Ok row -> not_shared k -> k <> "length_utilization" ->
  row !! k =
  literal_row (fun attr => _config_value (_get res "config" VNone) attr VNone)
              (fun attr => _get res attr VNone)
              (VFloat (match py_float (_get res "early_termination" (VFloat 0)) with
                       | Ok f => f | Raise _ => PrimFloat.zero end)) !! k.
Proof.
  intros H Hs Hk. apply record_of_inv in H as (early & items & row0 & He & -> & H).
  rewrite He. rewrite (add_length_utilization_other _ _ _ Hk H).
  apply add_breakdown_lookup, Hs.
Qed.


Lemma record_of_utilization res row :
  record_of res = Ok row ->
  if py_truthy (configured_length res) && py_truthy (realized_length res)
  then exists a b,
      py_float (realized_length res) = Ok a /\ py_float (configured_length res) = Ok b /\
      (b =? 0)%float = false /\
      row !! "length_utilization" = Some (VFloat (a / b))
  else row !! "length_utilization" = None.
Proof.
  intros H. apply record_of_inv in H as (early & items & row0 & He & -> & H).
  revert H. unfold add_length_utilization.
  rewrite !add_breakdown_lookup by not_shared.
  rewrite literal_row_length_cfg, literal_row_length.
  repeat change (default VNone (Some ?x)) with x.
  fold (configured_length res) (realized_length res).
  destruct (py_truthy (configured_length res)) eqn:Hc; cbn [andb].
  - destruct (py_truthy (realized_length res)) eqn:Hl.
    + intros H. apply bind_ok in H as (a & Ha & H). apply bind_ok in H as (b & Hb & H).
      apply bind_ok in H as (u & Hu & H). apply Ok_inj in H. subst row.
      apply py_truediv_ok in Hu as [Hz ->].
      exists a, b. repeat split; try assumption. apply lookup_insert_eq.
    + intros H. apply Ok_inj in H. subst row.
      rewrite add_breakdown_lookup by not_shared. apply literal_row_utilization.
  - intros H. apply Ok_inj in H. subst row.
    rewrite add_breakdown_lookup by not_shared. apply literal_row_utilization.
Qed.


Lemma record_of_ok res : is_ok (record_of res) = normalizable res.
Proof.
  unfold normalizable, early_ok, breakdown_ok, lengths_ok, record_of, base_row.
  destruct (py_float (_get res "early_termination" _)) as [early|e];
    cbn [mbind result_bind is_ok andb]; [|reflexivity].
  set (sb := _get res "score_breakdown" (VDict [])).
  set (row0 := literal_row _ _ _).
  assert (Hitems : forall k : list (string * value) -> result record,
    is_ok (py_items (if py_truthy sb then sb else VDict []) ≫= k) =
    (negb (py_truthy sb) || match sb with VDict _ => true | _ => false end) &&
    is_ok (k match (if py_truthy sb then sb else VDict []) with VDict d => d | _ => [] end)).
  { intros k. clearbody sb. clear. destruct sb as [| | | | | |d|a]; simpl;
      repeat match goal with |- context [if ?b then _ else _] => destruct b; simpl end;
      try reflexivity; try (destruct (assoc "items" a); reflexivity). }
  rewrite Hitems. f_equal.
  unfold add_length_utilization.
  rewrite !add_breakdown_lookup by not_shared. subst row0.
  rewrite literal_row_length_cfg, literal_row_length.
  repeat change (default VNone (Some ?x)) with x.
  fold (configured_length res) (realized_length res).
  destruct (py_truthy (configured_length res)); cbn [andb]; [|reflexivity].
  destruct (py_truthy (realized_length res)); [|reflexivity].
  destruct (py_float (realized_length res)) as [a|]; cbn [mbind result_bind is_ok]; [|reflexivity].
  destruct (py_float (configured_length res)) as [b|]; cbn [mbind result_bind is_ok]; [|reflexivity].
  unfold py_truediv. destruct (b =? 0)%float; reflexivity.
Qed.

(** *** Sample inputs used to exercise the statements *)

Definition sample_result : value :=
  VDict [ ("config", VDict [("altruism_prob", VFloat 0.5); ("conversation_length", VInt 10)]);
          ("total_score", VFloat 42); ("conversation_length", VInt 5);
          ("score_breakdown", VDict [("total", VFloat 42); ("coherence", VFloat 2)]) ].

Definition sample_record : record :=
  Eval vm_compute in
    match record_of sample_result with Ok row => row | Raise _ => ∅ end.

(** C2 (amended).  The utilization ratio [float(realized) / float(configured)]
    is stored under [length_utilization] exactly when both lengths are truthy
    (present, not null, not zero, not empty); in every other case the record
    has no [length_utilization] key at all. *)
Theorem length_utilization_rule (results : list value) (records : list record)
    (i : nat) (res : value) (row : record) :
  results_to_records results = Ok records ->
  results !! i = Some res -> records !! i = Some row ->
  if py_truthy (configured_length res) && py_truthy (realized_length res)
  then exists a b,
      py_float (realized_length res) = Ok a /\ py_float (configured_length res) = Ok b /\
      (b =? 0)%float = false /\
      row !! "length_utilization" = Some (VFloat (a / b))
  else row !! "length_utilization" = None.
Proof.
  intros Hrun Hres Hrow.
  destruct (map_result_lookup _ _ _ _ _ Hrun Hres) as (row' & Hrow' & Hrec).
  assert (row' = row) as -> by congruence.
  apply record_of_utilization, Hrec.
Qed.

Lemma length_utilization_rule_witness :
  exists a b,
    py_float (VInt 5) = Ok a /\ py_float (VInt 10) = Ok b /\
    (b =? 0)%float = false /\
    sample_record !! "length_utilization" = Some (VFloat (a / b)).
Proof.
  refine (length_utilization_rule [sample_result] [sample_record] 0 sample_result
            sample_record _ _ _).
  - vm_compute. reflexivity.
  - reflexivity.
  - reflexivity.
Defined.

(** C2, as stated, fails: with the configured length missing, or with a
    realized length of zero, the record carries no [length_utilization] key
    (it is not present with a null value). *)
Lemma length_utilization_omitted :
  (map (fun row : record => row !! "length_utilization") <$>
     results_to_records [VDict [("conversation_length", VInt 5)]]) = Ok [None] /\
  (map (fun row : record => row !! "length_utilization") <$>
     results_to_records
       [VDict [("config", VDict [("conversation_length", VInt 10)]);
               ("conversation_length", VInt 0)]]) = Ok [None].
Proof. split; vm_compute; reflexivity. Qed.






(** ** Loops, sorting and dictionaries *)

Local Open Scope list_scope.

(** An invariant carried through a [for] loop whose body never raises on
    the items it is given. *)
Lemma for_each_invariant {A S : Type} (body : S -> A -> result S)
    (Q : A -> Prop) (P : list A -> S -> Prop) (xs : list A) (s0 : S) :
  P [] s0 ->
  (forall done s x, P done s -> Q x ->
                    exists s', body s x = Ok s' /\ P (done ++ [x]) s') ->
  Forall Q xs ->
  exists s, for_each body xs s0 = Ok s /\ P xs s.
Proof.
  intros H0 Hstep HQ.
  assert (forall done s, P done s ->
            exists s', for_each body xs s = Ok s' /\ P (done ++ xs) s') as Hgen.
  { induction HQ as [|x xs Hx HQ IH]; intros done s HP; simpl.
    - exists s. rewrite app_nil_r. auto.
    - destruct (Hstep done s x HP Hx) as (s' & -> & HP'). simpl.
      destruct (IH (done ++ [x]) s' HP') as (s'' & Hrun & HP'').
      exists s''. split; [exact Hrun|]. rewrite <- app_assoc in HP''. exact HP''. }
  apply (Hgen [] s0 H0).
Qed.

Section sorting.
Context {A R : Type} (lt : A -> A -> result bool) (m : A -> R).
Context (ltR : R -> R -> Prop) `{!RelDecision ltR}.
Context (good : A -> Prop).
Hypothesis ltR_irrefl : forall x, ~ ltR x x.
Hypothesis ltR_trans : forall x y z, ltR x y -> ltR y z -> ltR x z.
Hypothesis ltR_total : forall x y, ltR x y \/ x = y \/ ltR y x.
Hypothesis lt_good :
  forall a b, good a -> good b -> lt a b = Ok (bool_decide (ltR (m a) (m b))).

(** [a] may stand before [b]. *)
Definition before (a b : A) : Prop := ~ ltR (m b) (m a).

Lemma before_trans a b c : before a b -> before b c -> before a c.
Proof.
  unfold before. intros Hab Hbc Hca.
  destruct (ltR_total (m a) (m b)) as [H | [H | H]]; [| |contradiction].
  - apply Hbc. eapply ltR_trans; eauto.
  - apply Hbc. rewrite <- H. exact Hca.
Qed.

Lemma insert_sorted_spec x l :
  good x -> Forall good l -> StronglySorted before l ->
  exists l', insert_sorted lt x l = Ok l' /\ Permutation (x :: l) l' /\
             StronglySorted before l'.
Proof.
  intros Hx Hl Hs. induction l as [|y l IH]; simpl.
  - exists [x]. repeat split; [reflexivity|]. repeat constructor.
  - inversion Hl as [|? ? Hy Hl']; subst. inversion Hs as [|? ? Hs' Hall]; subst.
    rewrite (lt_good x y Hx Hy). simpl. case_bool_decide as Hlt.
    + exists (x :: y :: l). repeat split; [reflexivity|].
      assert (before x y) as Hxy.
      { intros Hyx. apply (ltR_irrefl (m x)). eapply ltR_trans; eauto. }
      constructor; [exact Hs|]. constructor; [exact Hxy|].
      eapply Forall_impl; [exact Hall|]. intros z Hz. eapply before_trans; eauto.
    + destruct (IH Hl' Hs') as (l' & -> & Hperm & Hsorted). simpl.
      exists (y :: l'). repeat split.
      * rewrite <- Hperm. apply perm_swap.
      * constructor; [exact Hsorted|].
        rewrite <- Hperm. constructor; [exact Hlt | exact Hall].
Qed.

Lemma py_sorted_spec l :
  Forall good l ->
  exists l', py_sorted lt l = Ok l' /\ Permutation l l' /\ StronglySorted before l'.
Proof.
  intros Hl. unfold py_sorted.
  destruct (for_each_invariant (fun acc x => insert_sorted lt x acc) good
              (fun done acc => Permutation done acc /\ StronglySorted before acc /\
                               Forall good acc) l [])
    as (l' & Hrun & Hperm & Hsorted & _); [| |exact Hl|].
  - repeat split; constructor.
  - intros done acc x (Hperm & Hsorted & Hgood) Hx.
    destruct (insert_sorted_spec x acc Hx Hgood Hsorted) as (l' & -> & Hp & Hs).
    exists l'. repeat split; [| exact Hs |].
    + rewrite <- Hp, <- Hperm. symmetry. apply Permutation_cons_append.
    + rewrite <- Hp. constructor; assumption.
  - exists l'. auto.
Qed.

(** With pairwise different sort keys the result is strictly ascending. *)
Lemma sorted_strict l :
  NoDup (map m l) -> StronglySorted before l ->
  StronglySorted (fun a b => ltR (m a) (m b)) l.
Proof.
  induction l as [|a l IH]; intros Hnd Hs; [constructor|].
  simpl in Hnd. apply NoDup_cons in Hnd as [Hni Hnd].
  inversion Hs as [|? ? Hs' Hall]; subst.
  constructor; [apply IH; assumption|].
  rewrite Forall_forall in Hall |- *. intros b Hb.
  destruct (ltR_total (m a) (m b)) as [H | [H | H]]; [exact H | | ].
  - exfalso. apply Hni. rewrite H. apply list_elem_of_In, in_map, list_elem_of_In, Hb.
  - exfalso. exact (Hall b Hb H).
Qed.
End sorting.

(** *** The order on numbers and on tuples of numbers *)

Lemma num_lt_irrefl x : ~ num_lt x x.
Proof. destruct x as [|q|]; simpl; auto. intros H. exact (Qclt_not_eq q q H eq_refl). Qed.

Lemma num_lt_trans x y z : num_lt x y -> num_lt y z -> num_lt x z.
Proof.
  destruct x as [|p|], y as [|q|], z as [|r|]; simpl; try tauto.
  apply Qclt_trans.
Qed.

Lemma num_lt_total x y : num_lt x y \/ x = y \/ num_lt y x.
Proof.
  destruct x as [|p|], y as [|q|]; simpl; auto.
  destruct (Qclt_le_dec p q) as [H | H]; [auto|].
  destruct (Qcle_lt_or_eq _ _ H) as [H' | ->]; auto.
Qed.

Lemma lex_lt_irrefl a : ~ lex_lt a a.
Proof.
  induction a as [|x a IH]; simpl; [auto|].
  intros [H | [_ H]]; [exact (num_lt_irrefl x H) | exact (IH H)].
Qed.

Lemma lex_lt_trans a b c : lex_lt a b -> lex_lt b c -> lex_lt a c.
Proof.
  revert b c. induction a as [|x a IH]; intros [|y b] [|z c]; simpl; try tauto.
  intros [H1 | [-> H1]] [H2 | [-> H2]]; eauto using num_lt_trans.
Qed.

Lemma lex_lt_total a b : lex_lt a b \/ a = b \/ lex_lt b a.
Proof.
  revert b. induction a as [|x a IH]; intros [|y b]; simpl; auto.
  destruct (num_lt_total x y) as [H | [-> | H]]; auto.
  destruct (IH b) as [H | [-> | H]]; auto.
Qed.

(** *** Numeric keys *)

Lemma numeric_norm v : numeric v -> key_norm v = HNum (num_of v).
Proof.
  unfold numeric, num_of. intros [x Hx].
  destruct v; simpl in *; try discriminate; rewrite ?Hx; reflexivity.
Qed.

Lemma numeric_is_number v : numeric v -> is_number v = true.
Proof. intros [x Hx]. destruct v; simpl in *; try discriminate; reflexivity. Qed.

Lemma numeric_hashable v : numeric v -> py_hashable v = true.
Proof. intros [x Hx]. destruct v; simpl in *; try discriminate; reflexivity. Qed.

Lemma numeric_not_none v : numeric v -> is_none v = false.
Proof. intros [x Hx]. destruct v; simpl in *; try discriminate; reflexivity. Qed.

Lemma py_lt_numeric a b :
  numeric a -> numeric b -> py_lt a b = Ok (bool_decide (num_lt (num_of a) (num_of b))).
Proof.
  intros Ha Hb. pose proof (numeric_is_number a Ha) as Na.
  pose proof (numeric_is_number b Hb) as Nb.
  unfold num_of. destruct Ha as [x Hx], Hb as [y Hy]. rewrite Hx, Hy. simpl.
  unfold py_lt. rewrite Na, Nb, Hx, Hy. simpl.
  destruct a; try discriminate; destruct b; try discriminate; reflexivity.
Qed.

Lemma key_eq_numeric a b :
  numeric a -> numeric b -> key_eq a b = bool_decide (num_of a = num_of b).
Proof.
  intros Ha Hb. unfold key_eq. rewrite (numeric_norm a Ha), (numeric_norm b Hb).
  apply bool_decide_ext. split; [intros [= ->]; reflexivity | intros ->; reflexivity].
Qed.

Lemma tuple_lt_numeric a b :
  Forall numeric a -> Forall numeric b ->
  tuple_lt a b = Ok (bool_decide (lex_lt (map num_of a) (map num_of b))).
Proof.
  intros Ha. revert b. induction Ha as [|x a Hx Ha IH]; intros b Hb.
  - destruct Hb; cbn [tuple_lt map lex_lt].
    + rewrite bool_decide_eq_false_2 by tauto. reflexivity.
    + rewrite bool_decide_eq_true_2 by tauto. reflexivity.
  - destruct Hb as [|y b Hy Hb]; cbn [tuple_lt map lex_lt].
    + rewrite bool_decide_eq_false_2 by tauto. reflexivity.
    + rewrite (key_eq_numeric x y Hx Hy). case_bool_decide as Heq.
      * rewrite (IH b Hb). f_equal. apply bool_decide_ext. rewrite Heq.
        split; [auto|]. intros [H | [_ H]]; [|exact H].
        exfalso. exact (num_lt_irrefl _ H).
      * rewrite (py_lt_numeric x y Hx Hy). f_equal. apply bool_decide_ext.
        split; [auto|]. intros [H | [H _]]; [exact H | contradiction].
Qed.

Lemma numeric_norm_map l :
  Forall numeric l -> map key_norm l = map HNum (map num_of l).
Proof.
  induction 1 as [|v l Hv Hl IH]; simpl; [reflexivity|].
  rewrite (numeric_norm v Hv), IH. reflexivity.
Qed.

Lemma numeric_norm_inj a b :
  Forall numeric a -> Forall numeric b ->
  map key_norm a = map key_norm b -> map num_of a = map num_of b.
Proof.
  intros Ha. revert b. induction Ha as [|x a Hx Ha IH]; intros b Hb; destruct Hb as [|y b Hy Hb];
    simpl; try discriminate; [reflexivity|].
  rewrite (numeric_norm x Hx), (numeric_norm y Hy). intros [= -> H]. f_equal. auto.
Qed.

(** *** Dictionaries and sets keyed by values *)

Section pydict_facts.
Context {K N V : Type} `{EqDecision N} (norm : K -> N).
Implicit Types (d : list (K * V)) (s : list K).

Definition keys_of d : list N := map (fun kv => norm (fst kv)) d.

Lemma dict_find_update k k' (f : V -> V) v0 d :
  dict_find norm k' (dict_update norm k f v0 d) =
  if decide (norm k' = norm k) then Some (f (default v0 (dict_find norm k d)))
  else dict_find norm k' d.
Proof.
  induction d as [|[k0 v] d IH]; simpl.
  - repeat case_decide; reflexivity.
  - destruct (decide (norm k = norm k0)) as [Hk | Hk]; simpl.
    + destruct (decide (norm k' = norm k0)); destruct (decide (norm k' = norm k));
        try reflexivity; congruence.
    + rewrite IH.
      destruct (decide (norm k' = norm k0)); destruct (decide (norm k' = norm k));
        try reflexivity; congruence.
Qed.

Lemma dict_update_keys k (f : V -> V) v0 d x :
  x ∈ keys_of (dict_update norm k f v0 d) <-> x = norm k \/ x ∈ keys_of d.
Proof.
  unfold keys_of. induction d as [|[k0 v] d IH]; simpl.
  - set_solver.
  - destruct (decide (norm k = norm k0)) as [Hk | Hk]; simpl.
    + rewrite !elem_of_cons. rewrite Hk. tauto.
    + rewrite !elem_of_cons, IH. tauto.
Qed.

Lemma dict_update_NoDup k (f : V -> V) v0 d :
  NoDup (keys_of d) -> NoDup (keys_of (dict_update norm k f v0 d)).
Proof.
  induction d as [|[k0 v] d IH]; simpl; intros Hnd.
  - repeat constructor. set_solver.
  - apply NoDup_cons in Hnd as [Hni Hnd].
    destruct (decide (norm k = norm k0)) as [Hk | Hk]; simpl.
    + apply NoDup_cons. auto.
    + apply NoDup_cons. split; [|auto].
      fold (keys_of (dict_update norm k f v0 d)). rewrite dict_update_keys.
      intros [H | H]; [congruence | contradiction].
Qed.

Lemma dict_update_entry k (f : V -> V) v0 d k0 v :
  (k0, v) ∈ dict_update norm k f v0 d ->
  (k0 = k /\ norm k ∉ keys_of d) \/ (exists v', (k0, v') ∈ d).
Proof.
  induction d as [|[k1 v1] d IH]; simpl.
  - rewrite list_elem_of_singleton. intros [= -> ->]. left. split; [reflexivity|].
    unfold keys_of. simpl. set_solver.
  - destruct (decide (norm k = norm k1)) as [Hk | Hk].
    + rewrite elem_of_cons. intros [[= -> ->] | H]; right; eexists.
      * apply elem_of_cons. left. reflexivity.
      * apply elem_of_cons. right. exact H.
    + rewrite elem_of_cons. intros [[= -> ->] | H].
      * right. eexists. apply elem_of_cons. left. reflexivity.
      * destruct (IH H) as [[-> Hni] | [v' Hv']].
        -- left. split; [reflexivity|]. unfold keys_of in *. simpl.
           rewrite not_elem_of_cons. auto.
        -- right. exists v'. apply elem_of_cons. auto.
Qed.

Lemma dict_find_entry k v d :
  NoDup (keys_of d) -> (k, v) ∈ d -> dict_find norm k d = Some v.
Proof.
  induction d as [|[k0 v0] d IH]; simpl; intros Hnd Hin; [set_solver|].
  apply NoDup_cons in Hnd as [Hni Hnd]. apply elem_of_cons in Hin as [[= -> ->] | Hin].
  - rewrite decide_True by reflexivity. reflexivity.
  - destruct (decide (norm k = norm k0)) as [Hk | Hk]; [|auto].
    exfalso. apply Hni. rewrite <- Hk.
    unfold keys_of. apply list_elem_of_fmap. exists (k, v). auto.
Qed.

Lemma dict_find_Some k v d :
  dict_find norm k d = Some v -> exists k', (k', v) ∈ d /\ norm k' = norm k.
Proof.
  induction d as [|[k0 v0] d IH]; simpl; [discriminate|].
  destruct (decide (norm k = norm k0)) as [Hk | Hk].
  - intros [= ->]. exists k0. split; [apply elem_of_cons; auto | auto].
  - intros H. destruct (IH H) as (k' & Hin & Hn). exists k'. split; [|exact Hn].
    apply elem_of_cons. auto.
Qed.

Lemma set_add_norms k s x :
  x ∈ map norm (set_add norm k s) <-> x = norm k \/ x ∈ map norm s.
Proof.
  induction s as [|k0 s IH]; simpl.
  - set_solver.
  - destruct (decide (norm k = norm k0)) as [Hk | Hk]; simpl.
    + rewrite !elem_of_cons. rewrite Hk. tauto.
    + rewrite !elem_of_cons, IH. tauto.
Qed.

Lemma set_add_NoDup k s : NoDup (map norm s) -> NoDup (map norm (set_add norm k s)).
Proof.
  induction s as [|k0 s IH]; simpl; intros Hnd.
  - repeat constructor. set_solver.
  - destruct (decide (norm k = norm k0)) as [Hk | Hk]; simpl; [exact Hnd|].
    apply NoDup_cons in Hnd as [Hni Hnd]. apply NoDup_cons. split; [|auto].
    rewrite set_add_norms. intros [H | H]; [congruence | contradiction].
Qed.

Lemma set_add_elem k s x : x ∈ set_add norm k s -> x = k \/ x ∈ s.
Proof.
  induction s as [|k0 s IH]; simpl.
  - rewrite list_elem_of_singleton. auto.
  - destruct (decide (norm k = norm k0)); [auto|].
    rewrite !elem_of_cons. intros [-> | H]; [auto|]. destruct (IH H); auto.
Qed.
End pydict_facts.


(** ** The Pareto point builder *)

Lemma py_sum_snoc xs x : py_sum (xs ++ [x]) = (py_sum xs + x)%float.
Proof. unfold py_sum. rewrite fold_left_app. reflexivity. Qed.

Lemma observations_snoc attr rs res :
  observations attr (rs ++ [res]) = observations attr rs ++ observation attr res.
Proof. unfold observations. rewrite flat_map_app. simpl. rewrite app_nil_r. reflexivity. Qed.

Lemma observation_cases attr res :
  convertible (getattr res attr VNone) ->
  (is_none (getattr res attr VNone) = true /\ observation attr res = []) \/
  (exists x, is_none (getattr res attr VNone) = false /\
             py_float (getattr res attr VNone) = Ok x /\ observation attr res = [x]).
Proof.
  unfold convertible, observation. intros [H | H].
  - left. rewrite H. auto.
  - destruct (is_none (getattr res attr VNone)) eqn:Hn; [left; auto | right].
    destruct (py_float (getattr res attr VNone)) as [x|]; [|discriminate].
    exists x. auto.
Qed.

(** The accumulator of the group [k] after the totals of [d1], the
    individual scores of [d2] and the early-termination values of [d3]. *)
Definition group_stats (k : list value) (d1 d2 d3 : list value) : pareto_group :=
  {| total_sum := py_sum (observations "total_score" (List.filter (in_group k) d1));
     total_count := length (observations "total_score" (List.filter (in_group k) d1));
     p10_sum := py_sum (observations "player10_individual_mean" (List.filter (in_group k) d2));
     p10_count := length (observations "player10_individual_mean" (List.filter (in_group k) d2));
     early_sum := py_sum (observations "early_termination" (List.filter (in_group k) d3));
     early_count := length (observations "early_termination" (List.filter (in_group k) d3)) |}.

Definition apply_observation (add : float -> pareto_group -> pareto_group)
    (obs : list float) (g : pareto_group) : pareto_group :=
  match obs with
  | [x] => add x g
  | _ => g
  end.

Definition group_at (k : list value) (gs : groups) : pareto_group :=
  default new_group (dict_find (map key_norm) k gs).

Lemma observe_spec key attr res add gs :
  Forall numeric key -> convertible (getattr res attr VNone) ->
  exists gs',
    observe key (getattr res attr VNone) add gs = Ok gs' /\
    (NoDup (keys_of (map key_norm) gs) -> NoDup (keys_of (map key_norm) gs')) /\
    (forall k g, (k, g) ∈ gs' -> k = key \/ exists g', (k, g') ∈ gs) /\
    (forall k, group_at k gs' =
               if decide (map key_norm k = map key_norm key)
               then apply_observation add (observation attr res) (group_at key gs)
               else group_at k gs).
Proof.
  intros Hkey Hconv. unfold observe.
  destruct (observation_cases attr res Hconv) as [[Hn Ho] | (x & Hn & Hx & Ho)];
    rewrite Hn, Ho.
  - exists gs. split; [reflexivity|]. split; [auto|]. split; [eauto|].
    intros k. simpl. case_decide as Hk; [|reflexivity].
    unfold group_at. clear -Hk. f_equal.
    induction gs as [|[k0 g0] gs IH]; simpl; [reflexivity|].
    rewrite Hk. case_decide; [reflexivity | exact IH].
  - unfold hash_tuple.
    assert (forallb py_hashable key = true) as ->.
    { apply forallb_forall. intros v Hv. apply numeric_hashable.
      rewrite Forall_forall in Hkey. apply Hkey, list_elem_of_In, Hv. }
    rewrite Hx. simpl. eexists. split; [reflexivity|]. split; [|split].
    + apply dict_update_NoDup.
    + intros k g Hin. apply dict_update_entry in Hin as [[-> _] | H]; auto.
    + intros k. unfold group_at. rewrite dict_find_update. case_decide; reflexivity.
Qed.

Lemma filter_snoc {A} (f : A -> bool) xs x :
  List.filter f (xs ++ [x]) = List.filter f xs ++ (if f x then [x] else []).
Proof. rewrite List.filter_app. reflexivity. Qed.

Lemma in_group_key k res :
  keyed res = true ->
  in_group k res = bool_decide (map key_norm k = map key_norm (pareto_key res)).
Proof.
  intros Hk. unfold in_group. rewrite Hk. simpl.
  apply bool_decide_ext. split; congruence.
Qed.

Lemma observations_filter_snoc attr k d res :
  keyed res = true ->
  observations attr (List.filter (in_group k) (d ++ [res])) =
  observations attr (List.filter (in_group k) d) ++
  (if decide (map key_norm k = map key_norm (pareto_key res))
   then observation attr res else []).
Proof.
  intros Hk. rewrite filter_snoc, (in_group_key k res Hk).
  case_bool_decide; case_decide; try contradiction.
  - apply observations_snoc.
  - rewrite app_nil_r. unfold observations. rewrite app_nil_r. reflexivity.
Qed.

Lemma observations_filter_skip attr k d res :
  keyed res = false ->
  observations attr (List.filter (in_group k) (d ++ [res])) =
  observations attr (List.filter (in_group k) d).
Proof.
  intros Hk. rewrite filter_snoc. unfold in_group at 2. rewrite Hk. simpl.
  rewrite app_nil_r. reflexivity.
Qed.

Lemma group_stats_ext k k' d1 d2 d3 :
  map key_norm k = map key_norm k' -> group_stats k d1 d2 d3 = group_stats k' d1 d2 d3.
Proof.
  intros Hk. unfold group_stats.
  assert (forall d, List.filter (in_group k) d = List.filter (in_group k') d) as Hf.
  { intros d. apply List.filter_ext. intros r. unfold in_group. rewrite Hk. reflexivity. }
  rewrite !Hf. reflexivity.
Qed.

Lemma length_obs_snoc (l o : list float) x : o = [x] -> length (l ++ o) = S (length l).
Proof. intros ->. rewrite length_app. simpl. lia. Qed.

Ltac observation_step attr res Hk :=
  rewrite (observations_filter_snoc attr _ _ res Hk);
  case_decide;
  [ destruct (observation attr res) as [|? [|? ?]] eqn:?; simpl;
    rewrite ?app_nil_r, ?py_sum_snoc, ?length_app; simpl;
    rewrite ?Nat.add_0_r, ?Nat.add_1_r
  | rewrite ?app_nil_r ].

Definition pareto_invariant (universe done : list value) (gs : groups) : Prop :=
  NoDup (keys_of (map key_norm) gs) /\
  (forall k g, (k, g) ∈ gs ->
               exists res, res ∈ universe /\ keyed res = true /\ k = pareto_key res) /\
  (forall k, group_at k gs = group_stats k done done done).

Lemma group_stats_snoc_other k d res :
  keyed res = true -> map key_norm k <> map key_norm (pareto_key res) ->
  group_stats k (d ++ [res]) (d ++ [res]) (d ++ [res]) = group_stats k d d d.
Proof.
  intros Hk Hne. unfold group_stats.
  rewrite !(observations_filter_snoc _ k d res Hk).
  rewrite !decide_False by exact Hne. rewrite !app_nil_r. reflexivity.
Qed.

Lemma group_stats_snoc_same k d res :
  keyed res = true -> map key_norm k = map key_norm (pareto_key res) ->
  group_stats k (d ++ [res]) (d ++ [res]) (d ++ [res]) =
  apply_observation add_early (observation "early_termination" res)
    (apply_observation add_p10 (observation "player10_individual_mean" res)
       (apply_observation add_total (observation "total_score" res)
          (group_stats k d d d))).
Proof.
  intros Hk Heq. unfold group_stats.
  rewrite !(observations_filter_snoc _ k d res Hk).
  rewrite !decide_True by exact Heq.
  assert (forall attr, observation attr res = [] \/ exists x, observation attr res = [x]) as Hobs.
  { intros attr. unfold observation. destruct (is_none _); [auto|].
    destruct (py_float _); eauto. }
  destruct (Hobs "total_score") as [-> | [x1 ->]];
    destruct (Hobs "player10_individual_mean") as [-> | [x2 ->]];
    destruct (Hobs "early_termination") as [-> | [x3 ->]];
    rewrite ?app_nil_r, ?py_sum_snoc, ?length_app; simpl;
    rewrite ?Nat.add_1_r; reflexivity.
Qed.

Lemma pareto_step_invariant universe done gs res :
  pareto_invariant universe done gs -> pareto_typed res /\ res ∈ universe ->
  exists gs', pareto_step gs res = Ok gs' /\ pareto_invariant universe (done ++ [res]) gs'.
Proof.
  intros (Hnd & Horigin & Hstats) [Htyped Hin]. unfold pareto_step.
  destruct (keyed res) eqn:Hk.
  - assert (existsb is_none (pareto_key res) = false) as ->.
    { clear -Hk. unfold keyed in Hk. destruct (existsb _ _); [discriminate | reflexivity]. }
    destruct (Htyped Hk) as (Hnum & Hc1 & Hc2 & Hc3).
    destruct (observe_spec (pareto_key res) "total_score" res add_total gs Hnum Hc1)
      as (gs1 & -> & Hnd1 & Ho1 & Hg1).
    destruct (observe_spec (pareto_key res) "player10_individual_mean" res add_p10 gs1 Hnum Hc2)
      as (gs2 & Hrun2 & Hnd2 & Ho2 & Hg2).
    destruct (observe_spec (pareto_key res) "early_termination" res add_early gs2 Hnum Hc3)
      as (gs3 & Hrun3 & Hnd3 & Ho3 & Hg3).
    cbn [mbind result_bind]. rewrite Hrun2. cbn [mbind result_bind]. rewrite Hrun3.
    exists gs3. split; [reflexivity|]. split; [auto|]. split.
    + intros k g Hkg.
      assert (k = pareto_key res \/ exists g', (k, g') ∈ gs) as [-> | [g' Hg']].
      { destruct (Ho3 k g Hkg) as [? | [g2 H2]]; [auto|].
        destruct (Ho2 k g2 H2) as [? | [g1 H1]]; [auto|].
        destruct (Ho1 k g1 H1) as [? | ?]; auto. }
      * exists res. auto.
      * eapply Horigin, Hg'.
    + intros k. rewrite Hg3. case_decide as Hsame.
      * rewrite Hg2, Hg1. rewrite !decide_True by reflexivity.
        rewrite (group_stats_snoc_same k done res Hk Hsame), Hstats.
        rewrite (group_stats_ext k (pareto_key res) done done done Hsame). reflexivity.
      * rewrite Hg2, decide_False by exact Hsame.
        rewrite Hg1, decide_False by exact Hsame.
        rewrite (group_stats_snoc_other k done res Hk Hsame). apply Hstats.
  - assert (existsb is_none (pareto_key res) = true) as ->.
    { clear -Hk. unfold keyed in Hk. destruct (existsb _ _); [reflexivity | discriminate]. }
    exists gs. split; [reflexivity|]. split; [exact Hnd|]. split; [exact Horigin|].
    intros k. rewrite Hstats. unfold group_stats.
    rewrite !(observations_filter_skip _ k done res Hk). reflexivity.
Qed.

Lemma point_of_inv key data p :
  p ∈ point_of key data ->
  point_key p = key /\ total_count data <> 0%nat /\ p10_count data <> 0%nat /\
  total p = (total_sum data / float_of_nat (total_count data))%float /\
  player10 p = (p10_sum data / float_of_nat (p10_count data))%float /\
  early p = (if (early_count data =? 0)%nat then None
             else Some (early_sum data / float_of_nat (early_count data))%float) /\
  runs p = total_count data.
Proof.
  unfold point_of. destruct key as [|a [|t [|f [|m [|? ?]]]]]; try (intros H; inversion H; fail).
  destruct (total_count data =? 0)%nat eqn:H1; [intros H; inversion H|].
  destruct (p10_count data =? 0)%nat eqn:H2; [intros H; inversion H|].
  simpl. rewrite list_elem_of_singleton. intros ->. simpl.
  apply Nat.eqb_neq in H1, H2. repeat split; assumption.
Qed.

Lemma point_of_some key data :
  length key = 4%nat -> total_count data <> 0%nat -> p10_count data <> 0%nat ->
  exists p, point_of key data = [p].
Proof.
  intros Hlen H1 H2. destruct key as [|a [|t [|f [|m [|? ?]]]]]; try discriminate.
  unfold point_of. apply Nat.eqb_neq in H1, H2. rewrite H1, H2. simpl. eauto.
Qed.

Definition points_of (gs : groups) : list point :=
  flat_map (fun '(key, data) => point_of key data) gs.

Lemma points_of_elem gs p :
  p ∈ points_of gs <-> exists key data, (key, data) ∈ gs /\ p ∈ point_of key data.
Proof.
  unfold points_of. rewrite list_elem_of_In, in_flat_map. split.
  - intros ([key data] & Hin & Hp). exists key, data.
    rewrite !list_elem_of_In. auto.
  - intros (key & data & Hin & Hp). exists (key, data).
    rewrite <- !list_elem_of_In. auto.
Qed.

Lemma points_of_NoDup gs :
  NoDup (keys_of (map key_norm) gs) ->
  NoDup (map (fun p => map key_norm (point_key p)) (points_of gs)).
Proof.
  induction gs as [|[key data] gs IH]; simpl; intros Hnd; [constructor|].
  apply NoDup_cons in Hnd as [Hni Hnd]. rewrite map_app.
  assert (forall p, p ∈ point_of key data -> point_key p = key) as Hkey.
  { intros p Hp. apply point_of_inv in Hp. tauto. }
  apply NoDup_app. split; [|split].
  - unfold point_of in *. destruct key as [|a [|t [|f [|m [|? ?]]]]]; try constructor.
    destruct (_ || _); simpl; repeat constructor. set_solver.
  - intros x Hx Hx'. apply list_elem_of_fmap in Hx as (p & -> & Hp).
    apply list_elem_of_fmap in Hx' as (q & Hq & Hq').
    apply points_of_elem in Hq' as (key' & data' & Hin & Hq').
    apply point_of_inv in Hq' as [Hk' _]. change (map key_norm (point_key p) = map key_norm (point_key q)) in Hq.
    rewrite (Hkey p Hp) in Hq.
    apply Hni. rewrite Hq, Hk'. unfold keys_of. apply list_elem_of_fmap.
    exists (key', data'). auto.
  - apply IH, Hnd.
Qed.

Lemma StronglySorted_impl_elem {A} (R1 R2 : A -> A -> Prop) l :
  (forall a b, a ∈ l -> b ∈ l -> R1 a b -> R2 a b) ->
  StronglySorted R1 l -> StronglySorted R2 l.
Proof.
  induction l as [|a l IH]; intros Himpl Hs; [constructor|].
  inversion Hs as [|? ? Hs' Hall]; subst. constructor.
  - apply IH; [|exact Hs']. intros x y Hx Hy. apply Himpl; apply elem_of_cons; auto.
  - rewrite Forall_forall in Hall |- *. intros b Hb.
    apply Himpl; [apply elem_of_cons; auto | apply elem_of_cons; auto | auto].
Qed.

Lemma length_nonzero {A} (l : list A) : length l <> 0%nat <-> l <> [].
Proof. destruct l; simpl; split; intros H; congruence. Qed.

Lemma cell_of_length (xs : list float) :
  (if (length xs =? 0)%nat then None
   else Some (py_sum xs / float_of_nat (length xs))%float) = cell_of xs.
Proof. destruct xs; reflexivity. Qed.

Lemma pareto_groups results :
  Forall pareto_typed results ->
  exists gs, for_each pareto_step results [] = Ok gs /\
             pareto_invariant results results gs.
Proof.
  intros Htyped.
  apply (for_each_invariant pareto_step (fun res => pareto_typed res /\ res ∈ results)
           (pareto_invariant results)).
  - split; [constructor|]. split; [intros k g H; inversion H|]. intros k. reflexivity.
  - intros done gs res. apply pareto_step_invariant.
  - rewrite Forall_forall in Htyped |- *. auto.
Qed.


Definition sample_run (a t : Z) (score individual : value) : value :=
  VObj [ ("config", VObj [ ("altruism_prob", VInt a); ("tau_margin", VInt t);
                           ("epsilon_fresh", VFloat 0.5); ("epsilon_mono", VInt 0) ]);
         ("total_score", score); ("player10_individual_mean", individual) ].

Definition sample_runs : list value :=
  [ sample_run 2 1 (VInt 10) (VInt 1); sample_run 1 1 (VInt 20) (VFloat 2);
    sample_run 2 1 (VInt 30) VNone; sample_run 3 3 VNone (VInt 1) ].

Lemma sample_run_typed a t score individual :
  convertible score -> convertible individual ->
  pareto_typed (sample_run a t score individual).
Proof.
  intros Hs Hi _. split; [|split; [exact Hs|split; [exact Hi|left; reflexivity]]].
  change (pareto_key (sample_run a t score individual))
    with [VInt a; VInt t; VFloat 0.5; VInt 0].
  repeat (apply Forall_cons; split); try apply Forall_nil;
    eexists; vm_compute; reflexivity.
Qed.

Lemma sample_runs_typed : Forall pareto_typed sample_runs.
Proof.
  unfold sample_runs.
  repeat match goal with
         | |- Forall _ (_ :: _) => apply List.Forall_cons
         | |- Forall _ [] => apply List.Forall_nil
         end;
    apply sample_run_typed; try (left; reflexivity); right; vm_compute; reflexivity.
Qed.


(** The points computed for the sample: two groups have both kinds of
    observation, the third has no collective score and is left out. *)
Example pareto_points_sample :
  pareto_points sample_runs =
  Ok [ {| altruism := VInt 1; tau := VInt 1; fresh := VFloat 0.5; mono := VInt 0;
          total := 20; player10 := 2; early := None; runs := 1 |};
       {| altruism := VInt 2; tau := VInt 1; fresh := VFloat 0.5; mono := VInt 0;
          total := 20; player10 := 1; early := None; runs := 2 |} ].
Proof. vm_compute. reflexivity. Qed.


(** ** The grid builder *)

Lemma getattr_idem res attr : getattr res attr (getattr res attr VNone) = getattr res attr VNone.
Proof. destruct res; simpl; try reflexivity. destruct (assoc attr a); reflexivity. Qed.

Lemma dict_find_ext {K N V : Type} `{EqDecision N} (norm : K -> N) k k' (d : list (K * V)) :
  norm k = norm k' -> dict_find norm k d = dict_find norm k' d.
Proof.
  intros Hk. induction d as [|[k0 v] d IH]; simpl; [reflexivity|].
  rewrite Hk, IH. reflexivity.
Qed.

Section heatmap_facts.
Variables (row_attr col_attr metric : string).

Local Abbreviation row := (hm_row row_attr).
Local Abbreviation col := (hm_col col_attr).
Local Abbreviation met := (hm_metric metric).
Local Abbreviation contrib := (contributes row_attr col_attr metric).
Local Abbreviation cells := (cell_values row_attr col_attr metric).

Lemma heatmap_step_skip st res :
  contrib res = false -> heatmap_step row_attr col_attr metric st res = Ok st.
Proof.
  unfold contributes, heatmap_step, hm_row, hm_col, hm_metric. intros H.
  apply negb_false_iff in H.
  replace (if bool_decide (metric ∈ score_metrics)
           then getattr res metric (getattr res metric VNone)
           else getattr res metric VNone) with (getattr res metric VNone)
    by (case_bool_decide; [rewrite getattr_idem|]; reflexivity).
  rewrite H. reflexivity.
Qed.

Lemma heatmap_step_add st res :
  contrib res = true -> heatmap_typed row_attr col_attr metric res ->
  exists x, py_float (met res) = Ok x /\
    heatmap_step row_attr col_attr metric st res =
    Ok {| hm_matrix :=
            dict_update key_norm (row res)
              (dict_update key_norm (col res) (fun bucket => bucket ++ [x]) []) []
              (hm_matrix st);
          row_values := set_add key_norm (row res) (row_values st);
          col_values := set_add key_norm (col res) (col_values st) |}.
Proof.
  intros Hc Htyped. destruct (Htyped Hc) as (Hr & Hcl & Hm).
  destruct (py_float (met res)) as [x|] eqn:Hx; [|discriminate].
  exists x. split; [reflexivity|].
  unfold contributes in Hc. apply negb_true_iff in Hc.
  unfold heatmap_step, hm_row, hm_col, hm_metric in *.
  replace (if bool_decide (metric ∈ score_metrics)
           then getattr res metric (getattr res metric VNone)
           else getattr res metric VNone) with (getattr res metric VNone)
    by (case_bool_decide; [rewrite getattr_idem|]; reflexivity).
  rewrite Hc. unfold py_hash.
  rewrite (numeric_hashable _ Hr), (numeric_hashable _ Hcl), Hx. reflexivity.
Qed.

Lemma cells_snoc r c done res :
  cells r c (done ++ [res]) = cells r c done ++ cell_entry row_attr col_attr metric r c res.
Proof. unfold cell_values. rewrite flat_map_app. simpl. rewrite app_nil_r. reflexivity. Qed.

Lemma bucket_of_update m r0 c0 x r c :
  bucket_of (dict_update key_norm r0
               (dict_update key_norm c0 (fun bucket => bucket ++ [x]) []) [] m) r c =
  bucket_of m r c ++
  (if bool_decide (key_norm r0 = key_norm r) && bool_decide (key_norm c0 = key_norm c)
   then [x] else []).
Proof.
  unfold bucket_of. rewrite dict_find_update.
  destruct (decide (key_norm r = key_norm r0)) as [Hr | Hr].
  - rewrite (bool_decide_eq_true_2 _ (eq_sym Hr)). simpl.
    rewrite dict_find_update. rewrite (dict_find_ext key_norm r r0 m Hr).
    destruct (decide (key_norm c = key_norm c0)) as [Hc | Hc].
    + rewrite (bool_decide_eq_true_2 _ (eq_sym Hc)). simpl.
      rewrite (dict_find_ext key_norm c c0 _ Hc). reflexivity.
    + rewrite bool_decide_eq_false_2 by congruence. rewrite app_nil_r. reflexivity.
  - rewrite bool_decide_eq_false_2 by congruence. simpl. rewrite app_nil_r. reflexivity.
Qed.

Definition heatmap_invariant (done : list value) (st : heatmap_state) : Prop :=
  NoDup (map key_norm (row_values st)) /\
  NoDup (map key_norm (col_values st)) /\
  (forall r, r ∈ row_values st -> exists res, res ∈ done /\ contrib res = true /\ row res = r) /\
  (forall c, c ∈ col_values st -> exists res, res ∈ done /\ contrib res = true /\ col res = c) /\
  (forall res, res ∈ done -> contrib res = true ->
               key_norm (row res) ∈ map key_norm (row_values st) /\
               key_norm (col res) ∈ map key_norm (col_values st)) /\
  (forall r c, bucket_of (hm_matrix st) r c = cells r c done).

Lemma heatmap_step_invariant done st res :
  heatmap_invariant done st -> heatmap_typed row_attr col_attr metric res ->
  exists st', heatmap_step row_attr col_attr metric st res = Ok st' /\
              heatmap_invariant (done ++ [res]) st'.
Proof.
  intros (Hnr & Hnc & Hro & Hco & Hall & Hb) Htyped.
  destruct (contrib res) eqn:Hc.
  - destruct (heatmap_step_add st res Hc Htyped) as (x & Hx & ->).
    eexists. split; [reflexivity|].
    unfold heatmap_invariant. cbn [hm_matrix row_values col_values].
    split; [apply set_add_NoDup, Hnr|]. split; [apply set_add_NoDup, Hnc|].
    split; [|split; [|split]].
    + intros r Hr. apply set_add_elem in Hr as [-> | Hr].
      * exists res. split; [apply elem_of_app; right; apply list_elem_of_here|]. auto.
      * destruct (Hro r Hr) as (res' & Hin & H1 & H2). exists res'.
        split; [apply elem_of_app; auto|]. auto.
    + intros c Hcv. apply set_add_elem in Hcv as [-> | Hcv].
      * exists res. split; [apply elem_of_app; right; apply list_elem_of_here|]. auto.
      * destruct (Hco c Hcv) as (res' & Hin & H1 & H2). exists res'.
        split; [apply elem_of_app; auto|]. auto.
    + intros res' Hin Hc'. rewrite !set_add_norms.
      apply elem_of_app in Hin as [Hin | Hin].
      * destruct (Hall res' Hin Hc'). auto.
      * apply list_elem_of_singleton in Hin as ->. auto.
    + intros r c. rewrite bucket_of_update, Hb, cells_snoc. f_equal.
      unfold cell_entry. rewrite Hc, Hx. reflexivity.
  - rewrite (heatmap_step_skip st res Hc). exists st. split; [reflexivity|].
    split; [exact Hnr|]. split; [exact Hnc|]. split; [|split; [|split]].
    + intros r Hr. destruct (Hro r Hr) as (res' & Hin & H1 & H2). exists res'.
      split; [apply elem_of_app; auto|]. auto.
    + intros c Hcv. destruct (Hco c Hcv) as (res' & Hin & H1 & H2). exists res'.
      split; [apply elem_of_app; auto|]. auto.
    + intros res' Hin Hc'. apply elem_of_app in Hin as [Hin | Hin]; [auto|].
      apply list_elem_of_singleton in Hin as ->. congruence.
    + intros r c. rewrite cells_snoc, Hb. unfold cell_entry. rewrite Hc. simpl.
      rewrite app_nil_r. reflexivity.
Qed.
End heatmap_facts.

Lemma sorted_numbers (l : list value) :
  Forall numeric l -> NoDup (map key_norm l) ->
  exists l', py_sorted py_lt l = Ok l' /\ Permutation l l' /\
             StronglySorted (fun a b => py_lt a b = Ok true) l'.
Proof.
  intros Hnum Hnd.
  destruct (py_sorted_spec py_lt num_of num_lt numeric num_lt_irrefl num_lt_trans
              num_lt_total py_lt_numeric l Hnum) as (l' & Hrun & Hperm & Hsorted).
  exists l'. split; [exact Hrun|]. split; [exact Hperm|].
  assert (NoDup (map num_of l')) as Hdistinct.
  { rewrite <- Hperm. apply (NoDup_fmap_1 HNum).
    change (NoDup (map HNum (map num_of l))).
    rewrite <- numeric_norm_map by exact Hnum. exact Hnd. }
  pose proof (sorted_strict num_of num_lt num_lt_total l' Hdistinct Hsorted) as Hstrict.
  eapply StronglySorted_impl_elem; [|exact Hstrict].
  intros a b Ha Hb Hlt. simpl in Hlt.
  rewrite Forall_forall in Hnum.
  rewrite py_lt_numeric by (apply Hnum; rewrite Hperm; assumption).
  rewrite bool_decide_eq_true_2 by exact Hlt. reflexivity.
Qed.

Lemma heatmap_loop results row_attr col_attr metric :
  Forall (heatmap_typed row_attr col_attr metric) results ->
  exists st,
    for_each (heatmap_step row_attr col_attr metric) results
      {| hm_matrix := []; row_values := []; col_values := [] |} = Ok st /\
    heatmap_invariant row_attr col_attr metric results st.
Proof.
  intros Htyped.
  apply (for_each_invariant _ (heatmap_typed row_attr col_attr metric)
           (heatmap_invariant row_attr col_attr metric)); [| |exact Htyped].
  - unfold heatmap_invariant. simpl. repeat split; try constructor.
    + intros r Hr. inversion Hr.
    + intros c Hc. inversion Hc.
    + inversion H.
    + inversion H.
  - intros done st res. apply heatmap_step_invariant.
Qed.


Definition sample_cell (r c : Z) (score : value) : value :=
  VObj [ ("config", VObj [("altruism_prob", VInt r); ("tau_margin", VInt c)]);
         ("total_score", score) ].

(** The scenario of the specification: one result per cell. *)
Definition sample_cells : list value :=
  [ sample_cell 1 10 (VInt 5); sample_cell 1 20 (VInt 7);
    sample_cell 2 10 (VInt 9); sample_cell 2 20 (VInt 11) ].

Lemma sample_cells_typed :
  Forall (heatmap_typed "altruism_prob" "tau_margin" "total_score") sample_cells.
Proof.
  unfold sample_cells.
  repeat match goal with
         | |- Forall _ (_ :: _) => apply List.Forall_cons
         | |- Forall _ [] => apply List.Forall_nil
         end;
    intros _; (split; [|split]); try (eexists; vm_compute; reflexivity);
    vm_compute; reflexivity.
Qed.


Example heatmap_matrix_sample :
  heatmap_matrix sample_cells "altruism_prob" "tau_margin" "total_score" =
  Ok (Some ([VInt 1; VInt 2], [VInt 10; VInt 20],
            [[Some 5%float; Some 7%float]; [Some 9%float; Some 11%float]])).
Proof. vm_compute. reflexivity. Qed.



(** ** Results that are mappings *)

Lemma for_each_skip {A S : Type} (body : S -> A -> result S) (xs : list A) (s : S) :
  (forall x, x ∈ xs -> body s x = Ok s) -> for_each body xs s = Ok s.
Proof.
  induction xs as [|x xs IH]; intros H; simpl; [reflexivity|].
  rewrite (H x) by apply list_elem_of_here. simpl.
  apply IH. intros y Hy. apply H, list_elem_of_further, Hy.
Qed.

Lemma getattr_not_object res attr dflt : is_object res = false -> getattr res attr dflt = dflt.
Proof. destruct res; simpl; intros H; try reflexivity. discriminate. Qed.

(** The functions that read [result.config] with [getattr] see nothing in
    results that are not objects: the mappings [json.load] returns, which the
    command-line tool passes on unchanged, yield no Pareto point, no grid, no
    score bucket and no component means. *)
Theorem mappings_are_skipped (results : list value) (row_attr col_attr metric : string)
    (components : list string) :
  Forall (fun res => is_object res = false) results ->
  pareto_points results = Ok [] /\
  heatmap_matrix results row_attr col_attr metric = Ok None /\
  score_buckets_by_altruism results = Ok [] /\
  component_means_by_altruism results components = Ok None.
Proof.
  intros Hmap. rewrite Forall_forall in Hmap.
  repeat split.
  - unfold pareto_points. rewrite for_each_skip; [reflexivity|].
    intros res Hres. unfold pareto_step, pareto_key.
    rewrite (getattr_not_object res "config" VNone (Hmap res Hres)). reflexivity.
  - unfold heatmap_matrix. rewrite for_each_skip; [reflexivity|].
    intros res Hres. unfold heatmap_step.
    rewrite (getattr_not_object res "config" VNone (Hmap res Hres)). reflexivity.
  - unfold score_buckets_by_altruism. rewrite for_each_skip; [reflexivity|].
    intros res Hres. unfold bucket_step.
    rewrite (getattr_not_object res "config" VNone (Hmap res Hres)). reflexivity.
  - unfold component_means_by_altruism. rewrite for_each_skip; [reflexivity|].
    intros res Hres. unfold component_step.
    rewrite (getattr_not_object res "config" VNone (Hmap res Hres)). reflexivity.
Qed.

Lemma mappings_are_skipped_witness :
  pareto_points [sample_result] = Ok [] /\
  heatmap_matrix [sample_result] "altruism_prob" "tau_margin" "total_score" = Ok None /\
  score_buckets_by_altruism [sample_result] = Ok [] /\
  component_means_by_altruism [sample_result] ["coherence"] = Ok None.
Proof.
  apply (mappings_are_skipped [sample_result]).
  apply List.Forall_cons; [reflexivity | apply List.Forall_nil].
Defined.

(** ** The dashboard's conversion and the normalizer *)

Lemma assoc_filter_config attr (d : list (string * value)) :
  attr <> "config" ->
  assoc attr (List.filter (fun kv => negb (is_config_key kv)) d) = assoc attr d.
Proof.
  intros Hne. induction d as [|[k v] d IH]; simpl; [reflexivity|].
  unfold is_config_key at 1. simpl.
  destruct (String.eqb k "config") eqn:Hk; simpl.
  - apply String.eqb_eq in Hk. subst k.
    destruct (String.eqb attr "config") eqn:Ha; [|exact IH].
    apply String.eqb_eq in Ha. contradiction.
  - rewrite IH. reflexivity.
Qed.

Lemma _config_value_namespace cfg attr dflt :
  _config_value (VObj cfg) attr dflt = _config_value (VDict cfg) attr dflt.
Proof.
  unfold _config_value, hasattr, getattr, dict_get.
  destruct (assoc attr cfg) as [v|]; [rewrite bool_decide_eq_true_2 by eauto; reflexivity|].
  rewrite bool_decide_eq_false_2 by (intros [? ?]; discriminate). reflexivity.
Qed.

Lemma set_fields_ext (read1 read2 : string -> value) fields (row : record) :
  (forall key attr, In (key, attr) fields -> read1 attr = read2 attr) ->
  set_fields read1 fields row = set_fields read2 fields row.
Proof.
  unfold set_fields. revert row. induction fields as [|[key attr] fields IH]; intros row H;
    [reflexivity|].
  cbn [fold_left]. rewrite (H key attr) by (left; reflexivity).
  apply IH. intros k a Hin. apply (H k a). right. exact Hin.
Qed.

Lemma literal_row_ext (cfg1 cfg2 out1 out2 : string -> value) (early : value) :
  (forall attr, cfg1 attr = cfg2 attr) ->
  (forall key attr, In (key, attr) outcome_fields -> out1 attr = out2 attr) ->
  literal_row cfg1 out1 early = literal_row cfg2 out2 early.
Proof.
  intros Hcfg Hout. unfold literal_row.
  rewrite (set_fields_ext cfg1 cfg2 config_fields ∅ (fun key attr _ => Hcfg attr)).
  apply set_fields_ext, Hout.
Qed.

(** [record_of] reads a result only through [_get] and [_config_value]. *)
Lemma record_of_ext (r1 r2 : value) :
  (forall attr dflt, attr <> "config" -> _get r1 attr dflt = _get r2 attr dflt) ->
  (forall attr dflt, _config_value (_get r1 "config" VNone) attr dflt =
                     _config_value (_get r2 "config" VNone) attr dflt) ->
  record_of r1 = record_of r2.
Proof.
  intros Hget Hcfg. unfold record_of, base_row.
  rewrite (Hget "early_termination") by discriminate.
  rewrite (Hget "score_breakdown") by discriminate.
  assert (forall early,
            literal_row (fun attr => _config_value (_get r1 "config" VNone) attr VNone)
                        (fun attr => _get r1 attr VNone) early =
            literal_row (fun attr => _config_value (_get r2 "config" VNone) attr VNone)
                        (fun attr => _get r2 attr VNone) early) as Hrow.
  { intros early. apply literal_row_ext.
    - intros attr. apply Hcfg.
    - intros key attr Hin. apply Hget. intros ->. revert Hin.
      unfold outcome_fields. simpl. intuition discriminate. }
  destruct (py_float (_get r2 "early_termination" (VFloat 0))) as [early|e];
    cbn [mbind result_bind]; [|reflexivity].
  rewrite Hrow. reflexivity.
Qed.

Lemma convert_result_inv res obj :
  convert_result res = Ok obj ->
  exists d cfg, res = VDict d /\ assoc "config" d = Some (VDict cfg) /\
                obj = VObj (("config", VObj cfg)
                              :: List.filter (fun kv => negb (is_config_key kv)) d).
Proof.
  unfold convert_result. destruct res as [| | | | | |d|]; try discriminate.
  destruct (assoc "config" d) as [[| | | | | |cfg|]|] eqn:Hc; try discriminate.
  intros [= <-]. eauto.
Qed.

Lemma record_of_converted res obj :
  convert_result res = Ok obj -> record_of obj = record_of res.
Proof.
  intros H. apply convert_result_inv in H as (d & cfg & -> & Hc & ->).
  apply record_of_ext.
  - intros attr dflt Hne. unfold _get, getattr, dict_get. cbn [assoc].
    destruct (String.eqb attr "config") eqn:Ha.
    + apply String.eqb_eq in Ha. contradiction.
    + rewrite (assoc_filter_config attr d Hne). reflexivity.
  - intros attr dflt.
    change (_get (VObj (("config", VObj cfg)
                          :: List.filter (fun kv => negb (is_config_key kv)) d))
                 "config" VNone) with (VObj cfg).
    assert (_get (VDict d) "config" VNone = VDict cfg) as ->
      by (unfold _get, dict_get; rewrite Hc; reflexivity).
    apply _config_value_namespace.
Qed.

(** The dashboard script turns each loaded mapping into an object with a
    [config] object; whenever that conversion succeeds, the normalizer gives
    the converted results exactly the records (or raises exactly the
    exception) it gives the mappings they came from. *)
Theorem normalizer_ignores_conversion (results objects : list value) :
  converted_results results = Ok objects ->
  results_to_records objects = results_to_records results.
Proof.
  unfold converted_results, results_to_records. revert objects.
  induction results as [|res results IH]; intros objects H; simpl in H.
  - apply Ok_inj in H. subst objects. reflexivity.
  - apply bind_ok in H as (obj & Hobj & H). apply bind_ok in H as (objs & Hobjs & H).
    apply Ok_inj in H. subst objects. cbn [map_result].
    rewrite (record_of_converted res obj Hobj), (IH objs Hobjs). reflexivity.
Qed.

Definition sample_objects : list value :=
  Eval vm_compute in
    match converted_results [sample_result] with Ok objs => objs | Raise _ => [] end.

Lemma normalizer_ignores_conversion_witness :
  results_to_records sample_objects = results_to_records [sample_result].
Proof.
  apply (normalizer_ignores_conversion [sample_result] sample_objects).
  vm_compute. reflexivity.
Defined.


(** ** The schema of a normalized record *)

Lemma set_fields_lookup_other (read : string -> value) fields (row : record) k :
  (forall key attr, In (key, attr) fields -> key <> k) ->
  set_fields read fields row !! k = row !! k.
Proof.
  unfold set_fields. revert row.
  induction fields as [|[key attr] fields IH]; intros row H; [reflexivity|].
  cbn [fold_left]. rewrite IH by (intros k' a' Hin; apply (H k' a'); right; exact Hin).
  apply lookup_insert_ne. apply (H key attr). left. reflexivity.
Qed.

Lemma literal_row_config cfg out early key attr :
  In (key, attr) config_fields -> literal_row cfg out early !! key = Some (cfg attr).
Proof.
  unfold config_fields. simpl. intros H.
  repeat (destruct H as [H | H]; [inversion H; subst; vm_compute; reflexivity |]).
  destruct H.
Qed.

Lemma not_shared_config key attr : In (key, attr) config_fields -> not_shared key.
Proof.
  unfold config_fields. simpl. intros H.
  repeat (destruct H as [H | H]; [inversion H; subst; not_shared |]). destruct H.
Qed.

(** Every record carries the fourteen configuration keys and the eleven
    outcome keys of the dictionary display, whatever the result looks like: a
    configuration key holds what [_config_value] resolves on the result's
    [config] and an outcome key what [_get] resolves on the result, so a field
    that cannot be resolved is present with the value [None]. *)
Theorem record_schema (results : list value) (records : list record)
    (i : nat) (res : value) (row : record) :
  results_to_records results = Ok records ->
  results !! i = Some res -> records !! i = Some row ->
  (forall key attr, In (key, attr) config_fields ->
     row !! key = Some (_config_value (_get res "config" VNone) attr VNone)) /\
  (forall key attr, In (key, attr) outcome_fields ->
     row !! key = Some (_get res attr VNone)) /\
  (forall key attr, In (key, attr) config_fields ->
     is_none (_get res "config" VNone) = true -> row !! key = Some VNone).
Proof.
  intros Hrun Hres Hrow.
  destruct (map_result_lookup _ _ _ _ _ Hrun Hres) as (row' & Hrow' & Hrec).
  assert (row' = row) as -> by congruence. clear Hrun Hres Hrow Hrow'.
  assert (forall key attr, In (key, attr) config_fields ->
            row !! key = Some (_config_value (_get res "config" VNone) attr VNone)) as Hcfg.
  { intros key attr Hin. rewrite (record_of_lookup res row key Hrec).
    - exact (literal_row_config
               (fun attr => _config_value (_get res "config" VNone) attr VNone)
               _ _ key attr Hin).
    - eapply not_shared_config, Hin.
    - intros ->. revert Hin. unfold config_fields. simpl. intuition discriminate. }
  split; [exact Hcfg|]. split.
  - intros key attr Hin. rewrite (record_of_lookup res row key Hrec).
    + exact (literal_row_outcome _ (fun attr => _get res attr VNone) _ key attr Hin).
    + eapply not_shared_outcome, Hin.
    + intros ->. revert Hin. unfold outcome_fields. simpl. intuition discriminate.
  - intros key attr Hin Hnone. rewrite (Hcfg key attr Hin).
    destruct (_get res "config" VNone); try discriminate. reflexivity.
Qed.

Definition bare_result : value := VDict [("total_score", VInt 3)].

Definition bare_record : record :=
  match record_of bare_result with Ok row => row | Raise _ => ∅ end.

Lemma record_schema_witness :
  (forall key attr, In (key, attr) config_fields ->
     bare_record !! key = Some (_config_value (_get bare_result "config" VNone) attr VNone)) /\
  (forall key attr, In (key, attr) outcome_fields ->
     bare_record !! key = Some (_get bare_result attr VNone)) /\
  (forall key attr, In (key, attr) config_fields ->
     is_none (_get bare_result "config" VNone) = true -> bare_record !! key = Some VNone).
Proof.
  apply (record_schema [bare_result] [bare_record] 0 bare_result bare_record);
    reflexivity.
Defined.

(** *** Score-breakdown components *)

Lemma shared_inj c c' : ("shared_" ++ c = "shared_" ++ c')%string -> c = c'.
Proof. intros H. cbv in H. congruence. Qed.

Lemma literal_row_shared cfg out early c :
  literal_row cfg out early !! ("shared_" ++ c)%string = None.
Proof.
  unfold literal_row.
  rewrite set_fields_lookup_other.
  - rewrite lookup_insert_ne by discriminate.
    rewrite set_fields_lookup_other; [apply lookup_empty|].
    intros key attr Hin. apply not_eq_sym. eapply not_shared_config, Hin.
  - intros key attr Hin. apply not_eq_sym. eapply not_shared_outcome, Hin.
Qed.

Lemma add_breakdown_eq (row : record) c v :
  add_breakdown row (c, v) =
  if String.eqb c "total" then row else <[("shared_" ++ c)%string := v]> row.
Proof. reflexivity. Qed.

Lemma add_breakdown_shared items (row : record) c :
  fold_left add_breakdown items row !! ("shared_" ++ c)%string =
  if String.eqb c "total" then row !! ("shared_" ++ c)%string
  else match assoc c (rev items) with
       | Some v => Some v
       | None => row !! ("shared_" ++ c)%string
       end.
Proof.
  revert row. induction items as [|[c0 v0] items IH] using rev_ind; intros row.
  - simpl. destruct (String.eqb c "total"); reflexivity.
  - rewrite fold_left_app, rev_app_distr. cbn [fold_left rev app assoc].
    rewrite add_breakdown_eq.
    destruct (String.eqb c "total") eqn:Ht.
    + apply String.eqb_eq in Ht. subst c.
      destruct (String.eqb c0 "total") eqn:Ht0.
      * rewrite IH. reflexivity.
      * rewrite lookup_insert_ne; [rewrite IH; reflexivity|].
        intros Heq. apply shared_inj in Heq. subst c0. discriminate.
    + destruct (String.eqb c c0) eqn:Hc.
      * apply String.eqb_eq in Hc. subst c0. rewrite Ht. apply lookup_insert_eq.
      * assert (c <> c0) as Hne by (apply String.eqb_neq; exact Hc).
        destruct (String.eqb c0 "total").
        -- rewrite IH. reflexivity.
        -- rewrite lookup_insert_ne by (intros Heq; apply shared_inj in Heq; congruence).
           rewrite IH. reflexivity.
Qed.

Lemma assoc_rev_NoDup (items : list (string * value)) c v :
  NoDup (map fst items) -> (c, v) ∈ items -> assoc c (rev items) = Some v.
Proof.
  induction items as [|[c0 v0] items IH] using rev_ind; intros Hnd Hin; [inversion Hin|].
  rewrite rev_app_distr. cbn [rev app assoc].
  rewrite map_app in Hnd. apply NoDup_app in Hnd as (Hnd & Hdisj & _).
  apply elem_of_app in Hin as [Hin | Hin].
  - destruct (String.eqb c c0) eqn:Hc.
    + apply String.eqb_eq in Hc. subst c0. exfalso.
      apply (Hdisj c); [|simpl; apply list_elem_of_here].
      apply list_elem_of_fmap. exists (c, v). auto.
    + apply IH; assumption.
  - apply list_elem_of_singleton in Hin. injection Hin as -> ->.
    rewrite String.eqb_refl. reflexivity.
Qed.

Lemma assoc_elem (items : list (string * value)) c v :
  assoc c items = Some v -> (c, v) ∈ items.
Proof.
  induction items as [|[c0 v0] items IH]; simpl; [discriminate|].
  destruct (String.eqb c c0) eqn:Hc.
  - apply String.eqb_eq in Hc. subst c0. intros [= ->]. apply list_elem_of_here.
  - intros H. apply list_elem_of_further, IH, H.
Qed.

(** When the score breakdown of a result is a mapping, the record holds each
    of its components except [total] under the key [shared_<component>], with
    the component's value; it has no key [shared_total]; and every
    [shared_...] key it has comes from such a component. *)
Theorem shared_components (res : value) (items : list (string * value)) (row : record) :
  record_of res = Ok row ->
  _get res "score_breakdown" (VDict []) = VDict items ->
  NoDup (map fst items) ->
  row !! "shared_total" = None /\
  (forall c v, (c, v) ∈ items -> c <> "total" -> row !! ("shared_" ++ c)%string = Some v) /\
  (forall c v, row !! ("shared_" ++ c)%string = Some v -> (c, v) ∈ items /\ c <> "total").
Proof.
  intros Hrec Hsb Hnd. unfold record_of in Hrec.
  apply bind_ok in Hrec as (row0 & Hbase & Hrec).
  unfold base_row in Hbase. apply bind_ok in Hbase as (early & _ & Hbase).
  apply Ok_inj in Hbase. subst row0. rewrite Hsb in Hrec.
  assert (py_items (if py_truthy (VDict items) then VDict items else VDict []) = Ok items)
    as Hitems by (destruct items; reflexivity).
  rewrite Hitems in Hrec. cbn [mbind result_bind] in Hrec.
  assert (forall c, row !! ("shared_" ++ c)%string =
                    if String.eqb c "total" then None
                    else assoc c (rev items)) as Hlookup.
  { intros c.
    assert (("shared_" ++ c)%string <> "length_utilization") as Hne by (intros H; discriminate H).
    rewrite (add_length_utilization_other _ _ _ Hne Hrec).
    rewrite add_breakdown_shared, literal_row_shared.
    destruct (String.eqb c "total"); [reflexivity|].
    destruct (assoc c (rev items)); reflexivity. }
  split; [exact (Hlookup "total")|]. split.
  - intros c v Hin Hne. rewrite Hlookup.
    apply String.eqb_neq in Hne. rewrite Hne. apply assoc_rev_NoDup; assumption.
  - intros c v. rewrite Hlookup. destruct (String.eqb c "total") eqn:Ht; [discriminate|].
    intros H. apply assoc_elem in H. split.
    + apply list_elem_of_In, in_rev, list_elem_of_In, H.
    + apply String.eqb_neq, Ht.
Qed.

Lemma shared_components_witness :
  sample_record !! "shared_total" = None /\
  (forall c v, (c, v) ∈ [("total", VFloat 42); ("coherence", VFloat 2)] -> c <> "total" ->
               sample_record !! ("shared_" ++ c)%string = Some v) /\
  (forall c v, sample_record !! ("shared_" ++ c)%string = Some v ->
               (c, v) ∈ [("total", VFloat 42); ("coherence", VFloat 2)] /\ c <> "total").
Proof.
  apply (shared_components sample_result).
  - vm_compute. reflexivity.
  - reflexivity.
  - cbn [map fst].
    repeat (apply NoDup_cons_2;
            [rewrite ?elem_of_cons, elem_of_nil; intuition discriminate|]).
    apply NoDup_nil_2.
Defined.


(** ** Every contributing result lands in exactly one cell *)

Lemma sum_list_with_add {A} (f g : A -> nat) (l : list A) :
  sum_list_with (fun x => f x + g x)%nat l = (sum_list_with f l + sum_list_with g l)%nat.
Proof. induction l as [|x l IH]; simpl; [reflexivity|]. rewrite IH. lia. Qed.

Lemma sum_list_with_ext {A} (f g : A -> nat) (l : list A) :
  (forall x, x ∈ l -> f x = g x) -> sum_list_with f l = sum_list_with g l.
Proof.
  induction l as [|x l IH]; intros H; simpl; [reflexivity|].
  rewrite (H x) by apply list_elem_of_here.
  rewrite IH; [reflexivity|]. intros y Hy. apply H, list_elem_of_further, Hy.
Qed.

Lemma sum_list_with_zero {A} (l : list A) : sum_list_with (fun _ => 0%nat) l = 0%nat.
Proof. induction l; simpl; auto. Qed.

(** Among keys with pairwise different identities exactly one matches. *)
Lemma count_matching_key (k : hkey) (l : list value) :
  NoDup (map key_norm l) -> k ∈ map key_norm l ->
  sum_list_with (fun r => if bool_decide (k = key_norm r) then 1 else 0)%nat l = 1%nat.
Proof.
  induction l as [|r l IH]; simpl; intros Hnd Hin; [inversion Hin|].
  apply NoDup_cons in Hnd as [Hni Hnd]. case_bool_decide as Hk.
  - subst k. rewrite (sum_list_with_ext _ (fun _ => 0%nat)).
    + rewrite sum_list_with_zero. reflexivity.
    + intros x Hx. rewrite bool_decide_eq_false_2; [reflexivity|].
      intros Heq. apply Hni. rewrite Heq. apply list_elem_of_fmap. eauto.
  - apply elem_of_cons in Hin as [Hin | Hin]; [contradiction|].
    rewrite IH by assumption. reflexivity.
Qed.

Section grid_count.
Variables (row_attr col_attr metric : string).

Local Abbreviation row := (hm_row row_attr).
Local Abbreviation col := (hm_col col_attr).
Local Abbreviation contrib := (contributes row_attr col_attr metric).
Local Abbreviation cells := (cell_values row_attr col_attr metric).
Local Abbreviation entry := (cell_entry row_attr col_attr metric).

(** How many metric values the cells of the grid hold altogether. *)
Definition grid_size (rows cols : list value) (results : list value) : nat :=
  sum_list_with (fun r => sum_list_with (fun c => length (cells r c results)) cols) rows.

Lemma entry_length r c res :
  heatmap_typed row_attr col_attr metric res ->
  length (entry r c res) =
  if contrib res then
    ((if bool_decide (key_norm (row res) = key_norm r) then 1 else 0) *
     (if bool_decide (key_norm (col res) = key_norm c) then 1 else 0))%nat
  else 0%nat.
Proof.
  intros Htyped. unfold cell_entry. destruct (contrib res) eqn:Hc; [|reflexivity].
  destruct (Htyped Hc) as (_ & _ & Hm).
  destruct (py_float (hm_metric metric res)); [|discriminate].
  repeat case_bool_decide; reflexivity.
Qed.

Lemma grid_size_one rows cols res :
  heatmap_typed row_attr col_attr metric res ->
  NoDup (map key_norm rows) -> NoDup (map key_norm cols) ->
  (contrib res = true -> key_norm (row res) ∈ map key_norm rows /\
                         key_norm (col res) ∈ map key_norm cols) ->
  sum_list_with (fun r => sum_list_with (fun c => length (entry r c res)) cols) rows =
  if contrib res then 1%nat else 0%nat.
Proof.
  intros Htyped Hnr Hnc Hin.
  rewrite (sum_list_with_ext _
             (fun r => if contrib res
                       then if bool_decide (key_norm (row res) = key_norm r) then 1 else 0
                       else 0)%nat).
  - destruct (contrib res) eqn:Hc; [|apply sum_list_with_zero].
    apply count_matching_key; [exact Hnr | apply Hin; reflexivity].
  - intros r Hr.
    rewrite (sum_list_with_ext _
               (fun c => if contrib res
                         then ((if bool_decide (key_norm (row res) = key_norm r) then 1 else 0) *
                               (if bool_decide (key_norm (col res) = key_norm c) then 1 else 0))
                         else 0)%nat)
      by (intros c _; apply entry_length, Htyped).
    destruct (contrib res) eqn:Hc; [|apply sum_list_with_zero].
    case_bool_decide.
    + rewrite (sum_list_with_ext _
                 (fun c => if bool_decide (key_norm (col res) = key_norm c) then 1 else 0)%nat)
        by (intros; lia).
      apply count_matching_key; [exact Hnc | apply Hin; reflexivity].
    + rewrite (sum_list_with_ext _ (fun _ => 0%nat)) by (intros; lia).
      apply sum_list_with_zero.
Qed.

Lemma grid_size_count rows cols results :
  Forall (heatmap_typed row_attr col_attr metric) results ->
  NoDup (map key_norm rows) -> NoDup (map key_norm cols) ->
  (forall res, res ∈ results -> contrib res = true ->
               key_norm (row res) ∈ map key_norm rows /\
               key_norm (col res) ∈ map key_norm cols) ->
  grid_size rows cols results = length (List.filter contrib results).
Proof.
  intros Htyped Hnr Hnc. unfold grid_size.
  induction Htyped as [|res results Hres Htyped IH]; intros Hin.
  - simpl. rewrite (sum_list_with_ext _ (fun _ => 0%nat)).
    + apply sum_list_with_zero.
    + intros r _. apply sum_list_with_zero.
  - rewrite (sum_list_with_ext _
               (fun r => sum_list_with (fun c => length (entry r c res)) cols +
                         sum_list_with (fun c => length (cells r c results)) cols)%nat).
    + rewrite sum_list_with_add, IH
        by (intros r Hr; apply Hin, list_elem_of_further, Hr).
      rewrite (grid_size_one rows cols res Hres Hnr Hnc)
        by (apply Hin, list_elem_of_here).
      simpl. destruct (contrib res); reflexivity.
    + intros r _. rewrite <- sum_list_with_add. apply sum_list_with_ext.
      intros c _. unfold cell_values. simpl. apply length_app.
Qed.
End grid_count.

Lemma heatmap_matrix_some results row_attr col_attr metric row_order col_order grid :
  Forall (heatmap_typed row_attr col_attr metric) results ->
  heatmap_matrix results row_attr col_attr metric = Ok (Some (row_order, col_order, grid)) ->
  NoDup (map key_norm row_order) /\ NoDup (map key_norm col_order) /\
  (forall res, res ∈ results -> contributes row_attr col_attr metric res = true ->
               key_norm (hm_row row_attr res) ∈ map key_norm row_order /\
               key_norm (hm_col col_attr res) ∈ map key_norm col_order) /\
  grid = map (fun r => map (fun c => cell_of (cell_values row_attr col_attr metric r c results))
                           col_order) row_order.
Proof.
  intros Htyped Hrun.
  destruct (heatmap_loop results row_attr col_attr metric Htyped)
    as (st & Hloop & Hnr & Hnc & Hro & Hco & Hall & Hb).
  unfold heatmap_matrix in Hrun. rewrite Hloop in Hrun. cbn [mbind result_bind] in Hrun.
  assert (Forall numeric (row_values st)) as Hrnum.
  { rewrite Forall_forall. intros r Hr. destruct (Hro r Hr) as (res & Hin & Hc & <-).
    rewrite Forall_forall in Htyped. apply (Htyped res Hin Hc). }
  assert (Forall numeric (col_values st)) as Hcnum.
  { rewrite Forall_forall. intros c Hc. destruct (Hco c Hc) as (res & Hin & Hcr & <-).
    rewrite Forall_forall in Htyped. apply (Htyped res Hin Hcr). }
  destruct (sorted_numbers _ Hrnum Hnr) as (rows & Hrs & Hrp & _).
  destruct (sorted_numbers _ Hcnum Hnc) as (cols & Hcs & Hcp & _).
  destruct (row_values st) as [|r0 rs] eqn:Hrows; [discriminate|].
  destruct (col_values st) as [|c0 cs] eqn:Hcols; [discriminate|].
  rewrite Hrs in Hrun. cbn [mbind result_bind] in Hrun.
  rewrite Hcs in Hrun. cbn [mbind result_bind] in Hrun.
  injection Hrun as <- <- <-.
  split; [rewrite <- Hrp; exact Hnr|]. split; [rewrite <- Hcp; exact Hnc|]. split.
  - intros res Hin Hc. rewrite <- Hrp, <- Hcp. apply Hall; assumption.
  - apply map_ext. intros r. apply map_ext. intros c. rewrite Hb. reflexivity.
Qed.




(** ** Score buckets *)

Lemma dict_update_entry_value {K N V : Type} `{EqDecision N} (norm : K -> N)
    k (f : V -> V) v0 (d : list (K * V)) k0 v :
  (k0, v) ∈ dict_update norm k f v0 d ->
  (exists v', v = f v') \/ (k0, v) ∈ d.
Proof.
  induction d as [|[k1 v1] d IH]; simpl.
  - rewrite list_elem_of_singleton. intros [= -> ->]. eauto.
  - destruct (decide (norm k = norm k1)).
    + rewrite !elem_of_cons. intros [[= -> ->] | H]; eauto.
    + rewrite !elem_of_cons. intros [[= -> ->] | H]; [auto|].
      destruct (IH H); auto.
Qed.

Lemma sorted_items {V : Type} (l : list (value * V)) :
  Forall (fun kv => numeric (fst kv)) l -> NoDup (keys_of key_norm l) ->
  exists l', py_sorted (fun x y : value * V => py_lt (fst x) (fst y)) l = Ok l' /\
             Permutation l l' /\
             StronglySorted (fun x y => py_lt (fst x) (fst y) = Ok true) l'.
Proof.
  intros Hnum Hnd.
  destruct (py_sorted_spec (fun x y : value * V => py_lt (fst x) (fst y))
              (fun kv => num_of (fst kv)) num_lt (fun kv => numeric (fst kv))
              num_lt_irrefl num_lt_trans num_lt_total
              (fun x y Hx Hy => py_lt_numeric (fst x) (fst y) Hx Hy) l Hnum)
    as (l' & Hrun & Hperm & Hsorted).
  exists l'. split; [exact Hrun|]. split; [exact Hperm|].
  assert (NoDup (map (fun kv => num_of (fst kv)) l')) as Hdistinct.
  { rewrite <- Hperm. apply (NoDup_fmap_1 HNum). rewrite <- list_fmap_compose.
    erewrite list_fmap_ext; [exact Hnd|]. intros i kv Hkv. unfold compose.
    rewrite Forall_forall in Hnum. apply list_elem_of_lookup_2 in Hkv.
    symmetry. apply numeric_norm, Hnum, Hkv. }
  pose proof (sorted_strict (fun kv : value * V => num_of (fst kv)) num_lt num_lt_total
                l' Hdistinct Hsorted) as Hstrict.
  eapply StronglySorted_impl_elem; [|exact Hstrict].
  intros x y Hx Hy Hlt. cbv beta in Hlt. rewrite Forall_forall in Hnum.
  rewrite py_lt_numeric by (apply Hnum; rewrite Hperm; assumption).
  rewrite bool_decide_eq_true_2 by exact Hlt. reflexivity.
Qed.

(** The bucket of the level [a] once the totals of [d1] and the Player10
    totals of [d2] are in. *)
Definition bucket_stats (a : value) (d1 d2 : list value) : score_bucket :=
  {| bucket_total := observations "total_score" (List.filter (at_level a) d1);
     bucket_player10 := observations "player10_total_mean" (List.filter (at_level a) d2) |}.

Definition bucket_at (a : value) (bs : buckets) : score_bucket :=
  default new_bucket (dict_find key_norm a bs).

Definition apply_append (add : float -> score_bucket -> score_bucket)
    (obs : list float) (b : score_bucket) : score_bucket :=
  match obs with
  | [x] => add x b
  | _ => b
  end.

Definition nonempty_bucket (b : score_bucket) : Prop :=
  bucket_total b <> [] \/ bucket_player10 b <> [].

Lemma bucket_append_spec a attr res add bs :
  numeric a -> convertible (getattr res attr VNone) ->
  (forall x b, nonempty_bucket (add x b)) ->
  exists bs',
    bucket_append a (getattr res attr VNone) add bs = Ok bs' /\
    (NoDup (keys_of key_norm bs) -> NoDup (keys_of key_norm bs')) /\
    (forall k b, (k, b) ∈ bs' -> k = a \/ exists b', (k, b') ∈ bs) /\
    (forall k b, (k, b) ∈ bs' -> nonempty_bucket b \/ (k, b) ∈ bs) /\
    (forall k, bucket_at k bs' =
               if decide (key_norm k = key_norm a)
               then apply_append add (observation attr res) (bucket_at a bs)
               else bucket_at k bs).
Proof.
  intros Ha Hconv Hadd. unfold bucket_append.
  destruct (observation_cases attr res Hconv) as [[Hn Ho] | (x & Hn & Hx & Ho)];
    rewrite Hn, Ho.
  - exists bs. split; [reflexivity|]. split; [auto|]. split; [eauto|]. split; [auto|].
    intros k. simpl. case_decide as Hk; [|reflexivity].
    unfold bucket_at. rewrite (dict_find_ext key_norm k a bs Hk). reflexivity.
  - unfold py_hash. rewrite (numeric_hashable a Ha), Hx. simpl.
    eexists. split; [reflexivity|]. split; [apply dict_update_NoDup|]. split; [|split].
    + intros k b Hin. apply dict_update_entry in Hin as [[-> _] | H]; auto.
    + intros k b Hin. apply dict_update_entry_value in Hin as [[b' ->] | H]; auto.
    + intros k. unfold bucket_at. rewrite dict_find_update. case_decide; reflexivity.
Qed.

Lemma at_level_true a res :
  is_none (altruism_level res) = false ->
  at_level a res = bool_decide (key_norm a = key_norm (altruism_level res)).
Proof.
  intros H. unfold at_level. rewrite H. simpl. apply bool_decide_ext. split; congruence.
Qed.

Lemma level_observations_snoc attr a d res :
  is_none (altruism_level res) = false ->
  observations attr (List.filter (at_level a) (d ++ [res])) =
  observations attr (List.filter (at_level a) d) ++
  (if decide (key_norm a = key_norm (altruism_level res))
   then observation attr res else []).
Proof.
  intros H. rewrite filter_snoc, (at_level_true a res H).
  case_bool_decide; case_decide; try contradiction.
  - apply observations_snoc.
  - rewrite app_nil_r. unfold observations. rewrite app_nil_r. reflexivity.
Qed.

Lemma level_observations_skip attr a d res :
  is_none (altruism_level res) = true ->
  observations attr (List.filter (at_level a) (d ++ [res])) =
  observations attr (List.filter (at_level a) d).
Proof.
  intros H. rewrite filter_snoc. unfold at_level at 2. rewrite H. simpl.
  rewrite app_nil_r. reflexivity.
Qed.

Lemma observation_shape attr res :
  observation attr res = [] \/ exists x, observation attr res = [x].
Proof.
  unfold observation. destruct (is_none _); [auto|]. destruct (py_float _); eauto.
Qed.

Definition bucket_invariant (universe done : list value) (bs : buckets) : Prop :=
  NoDup (keys_of key_norm bs) /\
  (forall a b, (a, b) ∈ bs ->
     nonempty_bucket b /\
     exists res, res ∈ universe /\ is_none (altruism_level res) = false /\
                 a = altruism_level res) /\
  (forall a, bucket_at a bs = bucket_stats a done done).

Lemma bucket_step_invariant universe done bs res :
  bucket_invariant universe done bs -> bucket_typed res /\ res ∈ universe ->
  exists bs', bucket_step bs res = Ok bs' /\ bucket_invariant universe (done ++ [res]) bs'.
Proof.
  intros (Hnd & Hentry & Hstats) [Htyped Hin]. unfold bucket_step.
  fold (altruism_level res).
  destruct (is_none (altruism_level res)) eqn:Hn.
  - exists bs. split; [reflexivity|]. split; [exact Hnd|]. split; [exact Hentry|].
    intros a. rewrite Hstats. unfold bucket_stats.
    rewrite !(level_observations_skip _ a done res Hn). reflexivity.
  - destruct (Htyped Hn) as (Hnum & Hc1 & Hc2).
    destruct (bucket_append_spec (altruism_level res) "total_score" res append_total bs
                Hnum Hc1) as (bs1 & -> & Hnd1 & Ho1 & Hne1 & Hg1).
    { intros x b. left. simpl. destruct (bucket_total b); discriminate. }
    destruct (bucket_append_spec (altruism_level res) "player10_total_mean" res
                append_player10 bs1 Hnum Hc2) as (bs2 & Hrun2 & Hnd2 & Ho2 & Hne2 & Hg2).
    { intros x b. right. simpl. destruct (bucket_player10 b); discriminate. }
    cbn [mbind result_bind]. rewrite Hrun2.
    exists bs2. split; [reflexivity|]. split; [auto|]. split.
    + intros a b Hab. split.
      * destruct (Hne2 a b Hab) as [H | H]; [exact H|].
        destruct (Hne1 a b H) as [H' | H']; [exact H'|]. apply (Hentry a b H').
      * assert (a = altruism_level res \/ exists b', (a, b') ∈ bs) as [-> | [b' Hb']].
        { destruct (Ho2 a b Hab) as [? | [b1 H1]]; [auto|].
          destruct (Ho1 a b1 H1) as [? | ?]; auto. }
        -- exists res. auto.
        -- apply (Hentry a b' Hb').
    + intros a. rewrite Hg2. unfold bucket_stats.
      rewrite !(level_observations_snoc _ a done res Hn).
      case_decide as Hsame.
      * rewrite Hg1, decide_True by reflexivity. rewrite Hstats.
        assert (bucket_stats (altruism_level res) done done = bucket_stats a done done) as ->.
        { unfold bucket_stats.
          assert (forall d, List.filter (at_level (altruism_level res)) d =
                            List.filter (at_level a) d) as Hf.
          { intros d. apply List.filter_ext. intros r. unfold at_level.
            rewrite Hsame. reflexivity. }
          rewrite !Hf. reflexivity. }
        unfold bucket_stats.
        destruct (observation_shape "total_score" res) as [-> | [x1 ->]];
          destruct (observation_shape "player10_total_mean" res) as [-> | [x2 ->]];
          rewrite ?app_nil_r; reflexivity.
      * rewrite Hg1, decide_False by exact Hsame. rewrite Hstats, !app_nil_r. reflexivity.
Qed.

Lemma bucket_loop results :
  Forall bucket_typed results ->
  exists bs, for_each bucket_step results [] = Ok bs /\ bucket_invariant results results bs.
Proof.
  intros Htyped.
  apply (for_each_invariant bucket_step (fun res => bucket_typed res /\ res ∈ results)
           (bucket_invariant results)).
  - split; [constructor|]. split; [intros a b H; inversion H|]. intros a. reflexivity.
  - intros done bs res. apply bucket_step_invariant.
  - rewrite Forall_forall in Htyped |- *. auto.
Qed.

(** On results whose altruism level is a number and whose scores convert
    with [float()], [score_buckets_by_altruism] returns its buckets in strictly
    ascending order of level; the bucket of a level holds, in input order,
    exactly the total scores and exactly the Player10 totals of the results at
    that level; a level has a bucket if and only if one of its results has
    one of the two scores. *)
Theorem score_buckets_spec (results : list value) :
  Forall bucket_typed results ->
  exists bs,
    score_buckets_by_altruism results = Ok bs /\
    StronglySorted (fun x y => py_lt (fst x) (fst y) = Ok true) bs /\
    (forall a b, (a, b) ∈ bs ->
       (exists res, res ∈ results /\ is_none (altruism_level res) = false /\
                    a = altruism_level res) /\
       bucket_total b = observations "total_score" (List.filter (at_level a) results) /\
       bucket_player10 b =
         observations "player10_total_mean" (List.filter (at_level a) results) /\
       (bucket_total b <> [] \/ bucket_player10 b <> [])) /\
    (forall res, res ∈ results -> is_none (altruism_level res) = false ->
       observations "total_score" (List.filter (at_level (altruism_level res)) results) <> [] \/
       observations "player10_total_mean"
         (List.filter (at_level (altruism_level res)) results) <> [] ->
       exists a b, (a, b) ∈ bs /\ key_norm a = key_norm (altruism_level res)).
Proof.
  intros Htyped.
  destruct (bucket_loop results Htyped) as (bs0 & Hrun & Hnd & Hentry & Hstats).
  unfold score_buckets_by_altruism. rewrite Hrun. cbn [mbind result_bind].
  assert (Forall (fun kv : value * score_bucket => numeric (fst kv)) bs0) as Hnum.
  { rewrite Forall_forall. intros [a b] Hab.
    destruct (Hentry a b Hab) as (_ & res & Hres & Hn & ->).
    rewrite Forall_forall in Htyped. apply (Htyped res Hres Hn). }
  destruct (sorted_items bs0 Hnum Hnd) as (bs & -> & Hperm & Hsorted).
  exists bs. split; [reflexivity|]. split; [exact Hsorted|]. split.
  - intros a b Hab. rewrite <- Hperm in Hab.
    destruct (Hentry a b Hab) as (Hne & Hres).
    pose proof (Hstats a) as Hb. unfold bucket_at in Hb.
    rewrite (dict_find_entry key_norm a b bs0 Hnd Hab) in Hb. simpl in Hb. subst b.
    split; [exact Hres|]. split; [reflexivity|]. split; [reflexivity|]. exact Hne.
  - intros res Hres Hn Hobs.
    pose proof (Hstats (altruism_level res)) as Hb. unfold bucket_at in Hb.
    destruct (dict_find key_norm (altruism_level res) bs0) as [b|] eqn:Hfind.
    + apply dict_find_Some in Hfind as (a & Hab & Hnorm).
      exists a, b. split; [rewrite <- Hperm; exact Hab | exact Hnorm].
    + exfalso. simpl in Hb. unfold bucket_stats, new_bucket in Hb.
      injection Hb as H1 H2. destruct Hobs as [H | H]; apply H; congruence.
Qed.

Lemma sample_runs_bucket_typed : Forall bucket_typed sample_runs.
Proof.
  unfold sample_runs.
  repeat match goal with
         | |- Forall _ (_ :: _) => apply List.Forall_cons
         | |- Forall _ [] => apply List.Forall_nil
         end;
    intros _; (split; [eexists; reflexivity|split]);
    try (left; reflexivity); right; vm_compute; reflexivity.
Qed.

Lemma score_buckets_spec_witness :
  exists bs,
    score_buckets_by_altruism sample_runs = Ok bs /\
    StronglySorted (fun x y => py_lt (fst x) (fst y) = Ok true) bs /\
    (forall a b, (a, b) ∈ bs ->
       (exists res, res ∈ sample_runs /\ is_none (altruism_level res) = false /\
                    a = altruism_level res) /\
       bucket_total b = observations "total_score" (List.filter (at_level a) sample_runs) /\
       bucket_player10 b =
         observations "player10_total_mean" (List.filter (at_level a) sample_runs) /\
       (bucket_total b <> [] \/ bucket_player10 b <> [])) /\
    (forall res, res ∈ sample_runs -> is_none (altruism_level res) = false ->
       observations "total_score"
         (List.filter (at_level (altruism_level res)) sample_runs) <> [] \/
       observations "player10_total_mean"
         (List.filter (at_level (altruism_level res)) sample_runs) <> [] ->
       exists a b, (a, b) ∈ bs /\ key_norm a = key_norm (altruism_level res)).
Proof. exact (score_buckets_spec sample_runs sample_runs_bucket_typed). Defined.

(** The sample's buckets: level 3 has neither score and gets no bucket. *)
Example score_buckets_sample :
  score_buckets_by_altruism sample_runs =
  Ok [ (VInt 1, {| bucket_total := [20%float]; bucket_player10 := [] |});
       (VInt 2, {| bucket_total := [10%float; 30%float]; bucket_player10 := [] |}) ].
Proof. vm_compute. reflexivity. Qed.


(** ** Component means *)

Lemma for_each_flat_map {A B S : Type} (body : S -> B -> result S) (g : A -> list B)
    (xs : list A) (s : S) :
  for_each body (flat_map g xs) s = for_each (fun s x => for_each body (g x) s) xs s.
Proof.
  revert s. induction xs as [|x xs IH]; intros s; simpl; [reflexivity|].
  assert (forall l1 l2 s0, for_each body (l1 ++ l2) s0 =
                           for_each body l1 s0 ≫= for_each body l2) as Happ.
  { induction l1 as [|y l1 IHl]; intros l2 s0; simpl; [reflexivity|].
    destruct (body s0 y); simpl; [apply IHl | reflexivity]. }
  rewrite Happ. destruct (for_each body (g x) s); simpl; [apply IH | reflexivity].
Qed.

(** The pairs (result, component) in the order the nested loops visit them. *)
Definition visits (components : list string) (results : list value)
  : list (value * string) :=
  flat_map (fun res => if is_none (altruism_level res) then []
                       else map (fun key => (res, key)) components) results.

Definition visit_step (st : component_state) (visit : value * string)
  : result component_state :=
  component_add (altruism_level (fst visit)) (breakdown_of (fst visit)) st (snd visit).

Lemma component_step_visits components res st :
  component_step components st res =
  for_each visit_step
    (if is_none (altruism_level res) then []
     else map (fun key => (res, key)) components) st.
Proof.
  unfold component_step. fold (altruism_level res). fold (breakdown_of res).
  destruct (is_none (altruism_level res)); [reflexivity|].
  revert st. induction components as [|key components IH]; intros st;
    cbn [for_each map]; [reflexivity|].
  change (visit_step st (res, key))
    with (component_add (altruism_level res) (breakdown_of res) st key).
  destruct (component_add _ _ st key); cbn [mbind result_bind]; [apply IH | reflexivity].
Qed.

Lemma component_loop_visits components results st :
  for_each (component_step components) results st =
  for_each visit_step (visits components results) st.
Proof.
  unfold visits. rewrite for_each_flat_map. revert st.
  induction results as [|res results IH]; intros st; simpl; [reflexivity|].
  rewrite component_step_visits.
  destruct (for_each visit_step _ st); simpl; [apply IH | reflexivity].
Qed.

(** The values added for the level [a] and the component [key] by the
    visits [done]. *)
Definition visit_values (a : value) (key : string) (done : list (value * string))
  : list float :=
  flat_map (fun visit : value * string =>
              if at_level a (fst visit) && bool_decide (snd visit = key)
              then usable (snd visit) (fst visit) else []) done.

Definition sum_at (a : value) (key : string) (st : component_state) : float :=
  default PrimFloat.zero
    (dict_find same_string key (default [] (dict_find key_norm a (sums st)))).

Definition count_at (a : value) (key : string) (st : component_state) : nat :=
  default 0%nat
    (dict_find same_string key (default [] (dict_find key_norm a (counts st)))).

Lemma nested_update_find {V : Type} (m : list (value * list (string * V)))
    a key (f : V -> V) (v0 : V) a' key' :
  default v0 (dict_find same_string key'
                (default [] (dict_find key_norm a'
                               (dict_update key_norm a
                                  (dict_update same_string key f v0) [] m)))) =
  if bool_decide (key_norm a' = key_norm a) && bool_decide (key' = key)
  then f (default v0 (dict_find same_string key (default [] (dict_find key_norm a m))))
  else default v0 (dict_find same_string key' (default [] (dict_find key_norm a' m))).
Proof.
  rewrite dict_find_update.
  destruct (decide (key_norm a' = key_norm a)) as [Ha | Ha].
  - rewrite (bool_decide_eq_true_2 _ Ha). simpl.
    rewrite dict_find_update. rewrite (dict_find_ext key_norm a' a m Ha).
    unfold same_string at 1 2.
    destruct (decide (key' = key)) as [Hk | Hk].
    + rewrite (bool_decide_eq_true_2 _ Hk). reflexivity.
    + rewrite (bool_decide_eq_false_2 _ Hk). reflexivity.
  - rewrite (bool_decide_eq_false_2 _ Ha). reflexivity.
Qed.

Definition component_invariant (universe : list value) (done : list (value * string))
    (st : component_state) : Prop :=
  NoDup (keys_of key_norm (sums st)) /\
  (forall a m, (a, m) ∈ sums st ->
     exists res, res ∈ universe /\ is_none (altruism_level res) = false /\
                 a = altruism_level res) /\
  (forall visit, visit ∈ done -> is_none (altruism_level (fst visit)) = false ->
     usable (snd visit) (fst visit) <> [] ->
     key_norm (altruism_level (fst visit)) ∈ keys_of key_norm (sums st)) /\
  (forall a m, (a, m) ∈ sums st ->
     exists visit, visit ∈ done /\ usable (snd visit) (fst visit) <> [] /\
                   a = altruism_level (fst visit)) /\
  (forall a key, sum_at a key st = py_sum (visit_values a key done)) /\
  (forall a key, count_at a key st = length (visit_values a key done)).

Lemma visit_values_snoc a key done visit :
  visit_values a key (done ++ [visit]) =
  visit_values a key done ++
  (if at_level a (fst visit) && bool_decide (snd visit = key)
   then usable (snd visit) (fst visit) else []).
Proof. unfold visit_values. rewrite flat_map_app. simpl. rewrite app_nil_r. reflexivity. Qed.

Lemma usable_cases d key res :
  breakdown_of res = VDict d -> is_ok (try_float (dict_get d key VNone)) = true ->
  (usable key res = [] /\
   (is_none (dict_get d key VNone) = true \/ try_float (dict_get d key VNone) = Ok None)) \/
  (exists x, usable key res = [x] /\ is_none (dict_get d key VNone) = false /\
             try_float (dict_get d key VNone) = Ok (Some x)).
Proof.
  intros Hd Hok. unfold usable. rewrite Hd. simpl.
  destruct (is_none (dict_get d key VNone)) eqn:Hn; [left; auto|].
  destruct (try_float (dict_get d key VNone)) as [[x|]|]; [|left; auto|discriminate].
  right. exists x. auto.
Qed.

Lemma visit_step_invariant components universe done st visit :
  component_invariant universe done st ->
  (component_typed components (fst visit) /\ fst visit ∈ universe /\
   is_none (altruism_level (fst visit)) = false /\ snd visit ∈ components) ->
  exists st', visit_step st visit = Ok st' /\
              component_invariant universe (done ++ [visit]) st'.
Proof.
  intros (Hnd & Horigin & Hcomplete & Hused & Hsum & Hcount) (Htyped & Hin & Hn & Hkey).
  destruct visit as [res key]. simpl in *.
  destruct (Htyped Hn) as (Hnum & d & Hd & Hok).
  unfold visit_step, component_add. simpl. rewrite Hd. cbn [py_get mbind result_bind].
  destruct (usable_cases d key res Hd (Hok key Hkey))
    as [[Hu Hskip] | (x & Hu & Hnn & Hx)].
  - exists st. split.
    + destruct Hskip as [-> | Hnone]; [reflexivity|].
      destruct (is_none (dict_get d key VNone)); [reflexivity|]. rewrite Hnone. reflexivity.
    + split; [exact Hnd|]. split; [exact Horigin|]. split; [|split; [|split]].
      * intros v Hv Hvn Hvu. apply elem_of_app in Hv as [Hv | Hv]; [auto|].
        apply list_elem_of_singleton in Hv. subst v. simpl in Hvu. contradiction.
      * intros a m Ham. destruct (Hused a m Ham) as (v & Hv & H1 & H2).
        exists v. split; [apply elem_of_app; auto | auto].
      * intros a k. rewrite Hsum, visit_values_snoc. simpl. rewrite Hu.
        destruct (_ && _); rewrite app_nil_r; reflexivity.
      * intros a k. rewrite Hcount, visit_values_snoc. simpl. rewrite Hu.
        destruct (_ && _); rewrite app_nil_r; reflexivity.
  - rewrite Hnn, Hx. cbn [mbind result_bind]. unfold py_hash.
    rewrite (numeric_hashable _ Hnum). cbn [mbind result_bind].
    eexists. split; [reflexivity|]. unfold component_invariant. cbn [sums counts].
    split; [apply dict_update_NoDup, Hnd|]. split; [|split; [|split; [|split]]].
    + intros a m Ham. apply dict_update_entry in Ham as [[-> _] | [m' Hm']].
      * exists res. auto.
      * apply (Horigin a m' Hm').
    + intros v Hv Hvn Hvu. rewrite dict_update_keys.
      apply elem_of_app in Hv as [Hv | Hv]; [right; auto|].
      apply list_elem_of_singleton in Hv. subst v. left. reflexivity.
    + intros a m Ham. apply dict_update_entry in Ham as [[-> _] | [m' Hm']].
      * exists (res, key). split; [apply elem_of_app; right; apply list_elem_of_here|].
        simpl. split; [rewrite Hu; discriminate | reflexivity].
      * destruct (Hused a m' Hm') as (v & Hv & H1 & H2).
        exists v. split; [apply elem_of_app; auto | auto].
    + intros a k. unfold sum_at. cbn [sums]. rewrite nested_update_find.
      fold (sum_at (altruism_level res) key st). fold (sum_at a k st).
      rewrite visit_values_snoc. simpl. rewrite Hu.
      unfold at_level. rewrite Hn. simpl.
      rewrite (bool_decide_ext (key_norm a = key_norm (altruism_level res))
                 (key_norm (altruism_level res) = key_norm a)) by (split; congruence).
      rewrite (bool_decide_ext (k = key) (key = k)) by (split; congruence).
      destruct (bool_decide (key_norm (altruism_level res) = key_norm a)) eqn:Ha;
        destruct (bool_decide (key = k)) eqn:Hk; simpl;
        rewrite ?app_nil_r; try apply Hsum.
      apply bool_decide_eq_true in Ha, Hk. subst k.
      rewrite py_sum_snoc, <- Hsum. f_equal.
      unfold sum_at. rewrite (dict_find_ext key_norm _ _ _ Ha). reflexivity.
    + intros a k. unfold count_at. cbn [counts]. rewrite nested_update_find.
      fold (count_at (altruism_level res) key st). fold (count_at a k st).
      rewrite visit_values_snoc. simpl. rewrite Hu.
      unfold at_level. rewrite Hn. simpl.
      rewrite (bool_decide_ext (key_norm a = key_norm (altruism_level res))
                 (key_norm (altruism_level res) = key_norm a)) by (split; congruence).
      rewrite (bool_decide_ext (k = key) (key = k)) by (split; congruence).
      destruct (bool_decide (key_norm (altruism_level res) = key_norm a)) eqn:Ha;
        destruct (bool_decide (key = k)) eqn:Hk; simpl;
        rewrite ?app_nil_r; try apply Hcount.
      apply bool_decide_eq_true in Ha, Hk. subst k.
      rewrite length_app, <- Hcount. simpl.
      unfold count_at. rewrite (dict_find_ext key_norm _ _ _ Ha). lia.
Qed.

Lemma visits_elem components results res key :
  (res, key) ∈ visits components results <->
  res ∈ results /\ is_none (altruism_level res) = false /\ key ∈ components.
Proof.
  unfold visits. rewrite list_elem_of_In, in_flat_map. split.
  - intros (r & Hr & Hin). apply list_elem_of_In in Hr.
    destruct (is_none (altruism_level r)) eqn:Hn; [destruct Hin|].
    apply list_elem_of_In, list_elem_of_fmap in Hin as (k & [= -> ->] & Hk). auto.
  - intros (Hres & Hn & Hkey). exists res. split; [apply list_elem_of_In, Hres|].
    rewrite Hn. apply list_elem_of_In, list_elem_of_fmap. exists key. auto.
Qed.

Lemma component_loop components results :
  Forall (component_typed components) results ->
  exists st,
    for_each (component_step components) results {| sums := []; counts := [] |} = Ok st /\
    component_invariant results (visits components results) st.
Proof.
  intros Htyped. rewrite component_loop_visits.
  apply (for_each_invariant visit_step
           (fun visit => component_typed components (fst visit) /\ fst visit ∈ results /\
                         is_none (altruism_level (fst visit)) = false /\
                         snd visit ∈ components)
           (component_invariant results)).
  - split; [constructor|]. split; [intros a m H; inversion H|].
    split; [intros v H; inversion H|]. split; [intros a m H; inversion H|].
    split; intros a key; reflexivity.
  - intros done st visit. apply visit_step_invariant.
  - apply Forall_forall. intros [res key] Hin.
    apply visits_elem in Hin as (Hres & Hn & Hkey). simpl.
    split; [|auto]. apply (proj1 (Forall_forall _ _) Htyped res Hres).
Qed.

(** One component is visited once per result. *)
Lemma flat_map_single {B : Type} (b : bool) (g : string -> list B) key cs :
  NoDup cs -> key ∈ cs ->
  flat_map (fun k => if b && bool_decide (k = key) then g k else []) cs =
  if b then g key else [].
Proof.
  intros Hnd Hin. destruct b; simpl.
  - induction Hnd as [|k cs Hni Hnd IH]; [inversion Hin|]. simpl.
    apply elem_of_cons in Hin as [<- | Hin].
    + rewrite bool_decide_eq_true_2 by reflexivity.
      assert (flat_map (fun k => if bool_decide (k = key) then g k else []) cs = []) as ->.
      { clear IH Hnd. induction cs as [|k cs IH]; [reflexivity|]. simpl.
        rewrite bool_decide_eq_false_2 by (intros ->; apply Hni; left).
        apply IH. intros H. apply Hni. right. exact H. }
      apply app_nil_r.
    + rewrite bool_decide_eq_false_2 by (intros ->; contradiction). apply IH, Hin.
  - clear. induction cs as [|k cs IH]; [reflexivity|]. simpl. apply IH.
Qed.

Lemma visit_values_visits a key components results :
  NoDup components -> key ∈ components ->
  visit_values a key (visits components results) = component_values a key results.
Proof.
  intros Hnd Hin. unfold visit_values, visits, component_values.
  induction results as [|res results IH]; [reflexivity|].
  cbn [flat_map List.filter]. rewrite flat_map_app, IH. clear IH.
  assert (flat_map
            (fun visit : value * string =>
               if at_level a (fst visit) && bool_decide (snd visit = key)
               then usable (snd visit) (fst visit) else [])
            (if is_none (altruism_level res) then []
             else map (fun key0 => (res, key0)) components) =
          if at_level a res then usable key res else []) as ->.
  { destruct (is_none (altruism_level res)) eqn:Hn.
    - unfold at_level. rewrite Hn. reflexivity.
    - rewrite flat_map_concat_map, map_map, <- flat_map_concat_map. simpl.
      apply (flat_map_single (at_level a res) (fun k => usable k res) key components Hnd Hin). }
  destruct (at_level a res); reflexivity.
Qed.

Lemma component_mean_spec universe done st a key :
  component_invariant universe done st ->
  component_mean st a key = mean_or_zero (visit_values a key done).
Proof.
  intros (_ & _ & _ & _ & Hsum & Hcount). unfold component_mean, mean_or_zero.
  fold (count_at a key st). fold (sum_at a key st). rewrite Hsum, Hcount. reflexivity.
Qed.

(** *** The series dictionary *)

Section series.
Context {V : Type}.

Lemma update_absent (h : string -> V) (f : V -> V) v0 k0 cs :
  k0 ∉ cs ->
  dict_update same_string k0 f v0 (map (fun k => (k, h k)) cs) =
  map (fun k => (k, h k)) cs ++ [(k0, f v0)].
Proof.
  induction cs as [|k cs IH]; intros Hni; [reflexivity|]. simpl.
  rewrite decide_False by (unfold same_string; intros ->; apply Hni; left).
  rewrite IH; [reflexivity|]. intros H. apply Hni. right. exact H.
Qed.

Lemma update_present (h : string -> V) (f : V -> V) v0 k0 cs :
  NoDup cs -> k0 ∈ cs ->
  dict_update same_string k0 f v0 (map (fun k => (k, h k)) cs) =
  map (fun k => (k, if decide (k = k0) then f (h k) else h k)) cs.
Proof.
  induction 1 as [|k cs Hni Hnd IH]; intros Hin; [inversion Hin|]. simpl.
  unfold same_string at 1 2.
  destruct (decide (k0 = k)) as [-> | Hk].
  - rewrite decide_True by reflexivity. f_equal.
    apply map_ext_in. intros k' Hk'. apply list_elem_of_In in Hk'.
    rewrite decide_False by (intros ->; contradiction). reflexivity.
  - rewrite decide_False by congruence. f_equal. apply IH.
    apply elem_of_cons in Hin as [? | ?]; [contradiction | assumption].
Qed.
End series.

(** [{key: [] for key in components}] *)
Lemma empty_series {V : Type} (done cs : list string) :
  NoDup (done ++ cs) ->
  fold_left (fun s key => dict_update same_string key (fun _ : list V => []) [] s) cs
            (map (fun k => (k, [])) done) =
  map (fun k => (k, [])) (done ++ cs).
Proof.
  revert done. induction cs as [|k cs IH]; intros done Hnd; simpl.
  - rewrite app_nil_r. reflexivity.
  - rewrite (update_absent (fun _ => []) (fun _ => []) [] k done).
    + change [(k, @nil V)] with (map (fun k0 : string => (k0, @nil V)) [k]).
      rewrite <- map_app, IH by (rewrite <- app_assoc; exact Hnd).
      rewrite <- app_assoc. reflexivity.
    + apply NoDup_app in Hnd as (_ & Hd & _). intros H. apply (Hd k H). left.
Qed.

(** One pass of the inner loop appends one entry to the chosen components. *)
Lemma append_pass {V : Type} (g : string -> V) (h : string -> list V) ks cs :
  NoDup cs -> NoDup ks -> (forall k, k ∈ ks -> k ∈ cs) ->
  fold_left (fun s key => dict_update same_string key (fun l => l ++ [g key]) [] s) ks
            (map (fun k => (k, h k)) cs) =
  map (fun k => (k, if decide (k ∈ ks) then h k ++ [g k] else h k)) cs.
Proof.
  intros Hcs Hks. revert h.
  induction Hks as [|k0 ks Hni Hks IH]; intros h Hsub; cbn [fold_left].
  - apply map_ext. intros k. rewrite decide_False by (intros H; inversion H). reflexivity.
  - rewrite (update_present h (fun l => l ++ [g k0]) [] k0 cs Hcs)
      by (apply Hsub; left).
    rewrite IH by (intros k Hk; apply Hsub; right; exact Hk).
    apply map_ext. intros k. f_equal.
    destruct (decide (k = k0)) as [-> | Hk].
    + rewrite decide_False by exact Hni. rewrite decide_True by left. reflexivity.
    + destruct (decide (k ∈ ks)) as [Hin | Hin].
      * rewrite decide_True by (right; exact Hin). reflexivity.
      * rewrite decide_False; [reflexivity|].
        intros H. apply elem_of_cons in H as [? | ?]; contradiction.
Qed.

(** The nested loops over levels and components tabulate [g level key]. *)
Lemma series_table {L V : Type} (g : L -> string -> V) (h : string -> list V)
    (levels : list L) cs :
  NoDup cs ->
  fold_left
    (fun s level =>
       fold_left (fun s key => dict_update same_string key (fun l => l ++ [g level key]) [] s)
                 cs s)
    levels (map (fun k => (k, h k)) cs) =
  map (fun k => (k, h k ++ map (fun level => g level k) levels)) cs.
Proof.
  intros Hcs. revert h. induction levels as [|level levels IH]; intros h; simpl.
  - apply map_ext. intros k. rewrite app_nil_r. reflexivity.
  - rewrite (append_pass (g level) h cs cs Hcs Hcs) by auto.
    rewrite (map_ext_in _ (fun k => (k, h k ++ [g level k]))).
    + rewrite IH. apply map_ext. intros k. rewrite <- app_assoc. reflexivity.
    + intros k Hk. apply list_elem_of_In in Hk. rewrite decide_True by exact Hk. reflexivity.
Qed.


(** A run at altruism level [a] with the score breakdown [breakdown]. *)
Definition sample_scored (a : value) (breakdown : list (string * value)) : value :=
  VObj [ ("config", VObj [ ("altruism_prob", a) ]); ("score_breakdown", VDict breakdown) ].

Definition sample_scores : list value :=
  [ sample_scored (VFloat 0.5) [ ("importance", VInt 2); ("coherence", VStr "n/a") ];
    sample_scored (VFloat 0.25) [ ("coherence", VFloat 1) ];
    sample_scored VNone [ ("importance", VInt 100) ];
    sample_scored (VFloat 0.5) [ ("importance", VFloat 4); ("coherence", VNone) ] ].

Definition sample_components : list string := [ "importance"; "coherence" ].

Lemma sample_components_distinct : NoDup sample_components.
Proof. unfold sample_components. apply NoDup_cons. split; [|apply NoDup_singleton].
  intros H. apply list_elem_of_singleton in H. discriminate H.
Qed.

Lemma sample_scores_typed : Forall (component_typed sample_components) sample_scores.
Proof.
  unfold sample_scores.
  repeat match goal with
         | |- Forall _ (_ :: _) => apply List.Forall_cons
         | |- Forall _ [] => apply List.Forall_nil
         end;
    intros Hn; try discriminate Hn;
    (split; [eexists; vm_compute; reflexivity|]);
    eexists; (split; [reflexivity|]);
    intros key Hkey; unfold sample_components in Hkey;
    repeat (apply elem_of_cons in Hkey as [-> | Hkey]; [vm_compute; reflexivity|]);
    inversion Hkey.
Qed.


(** The sample's means: the unreadable and the null coherence values are
    skipped, the run without a level is ignored, and a level without a value
    for a component gets zero. *)
Example component_means_sample :
  component_means_by_altruism sample_scores sample_components =
  Ok (Some ([ VFloat 0.25; VFloat 0.5 ],
            [ ("importance", [0%float; 3%float]); ("coherence", [1%float; 0%float]) ])).
Proof. vm_compute. reflexivity. Qed.

